(** * excel_to_json.py: price formatting and row extraction

    A shallow embedding of [excel_to_json.py], the converter that turns the
    vehicle catalogue (CSV templates or an Excel workbook) into
    [data/vehicles.json], together with the properties of its price
    formatter and of its two row-extraction loops.

    Python text is a sequence of Unicode code points; it is modelled as
    [list N].  Dictionaries looked up by key (a [csv.DictReader] row, the
    [templates/] directory, the sheets of a workbook) are [gmap]s; the
    ordered [CATEGORY_MAPPING] is an association list. *)

From Stdlib Require Import NArith ZArith List Bool Ascii String Lia Decimal DecimalPos DecimalN.
From stdpp Require Import base option list gmap.
Import ListNotations.

Local Open Scope N_scope.
Local Open Scope bool_scope.

(** ** Text *)

Abbreviation pystr := (list N).

Module Utf8.

(** Source literals are written in UTF-8; [decode] turns the bytes of a
    literal into code points (1 to 4 byte sequences). *)
Fixpoint decode (bs : list N) : pystr :=
  match bs with
  | [] => []
  | b0 :: r0 =>
    if b0 <? 0x80 then b0 :: decode r0
    else match r0 with
    | [] => [b0]
    | b1 :: r1 =>
      if b0 <? 0xE0 then ((b0 - 0xC0) * 64 + (b1 - 0x80)) :: decode r1
      else match r1 with
      | [] => [b0; b1]
      | b2 :: r2 =>
        if b0 <? 0xF0
        then ((b0 - 0xE0) * 4096 + (b1 - 0x80) * 64 + (b2 - 0x80)) :: decode r2
        else match r2 with
        | [] => [b0; b1; b2]
        | b3 :: r3 =>
          ((b0 - 0xF0) * 262144 + (b1 - 0x80) * 4096
           + (b2 - 0x80) * 64 + (b3 - 0x80)) :: decode r3
        end
      end
    end
  end.

Definition text (s : string) : pystr :=
  decode (List.map N_of_ascii (list_ascii_of_string s)).

End Utf8.

Abbreviation u8 := Utf8.text.

(** [Py_UNICODE_ISSPACE]: the characters removed by [str.strip()] and
    matched by [\s] in a [str] pattern. *)
Definition is_space (c : N) : bool :=
  ((0x09 <=? c) && (c <=? 0x0D)) || ((0x1C <=? c) && (c <=? 0x20))
  || (c =? 0x85) || (c =? 0xA0) || (c =? 0x1680)
  || ((0x2000 <=? c) && (c <=? 0x200A))
  || (c =? 0x2028) || (c =? 0x2029) || (c =? 0x202F) || (c =? 0x205F)
  || (c =? 0x3000).

(** The character class [[–-]]: en dash U+2013 or hyphen-minus. *)
Definition is_dash (c : N) : bool := (c =? 0x2013) || (c =? 0x2D).

Definition is_digit (c : N) : bool := (0x30 <=? c) && (c <=? 0x39).

Definition dot : N := 0x2E.

(** The characters kept by [re.sub(r"[^0-9.]", "", part)]. *)
Definition is_numeric_char (c : N) : bool := is_digit c || (c =? dot).

Fixpoint lstrip (s : pystr) : pystr :=
  match s with
  | c :: s' => if is_space c then lstrip s' else s
  | [] => []
  end.

Definition rstrip (s : pystr) : pystr := rev (lstrip (rev s)).

(** [s.strip()] *)
Definition strip (s : pystr) : pystr := rstrip (lstrip s).

(** [str.lower()], one code point at a time.  Besides the ASCII capitals
    only U+0130 and U+212A have a lowercase form that contains an ASCII
    letter; every other code point outside ASCII lowers to code points
    outside ASCII and is kept as it is here, which the substring test for
    the ASCII word below cannot tell apart. *)
Definition lower_cp (c : N) : pystr :=
  if (0x41 <=? c) && (c <=? 0x5A) then [c + 0x20]
  else if c =? 0x130 then [0x69; 0x307]
  else if c =? 0x212A then [0x6B]
  else [c].

Definition lower (s : pystr) : pystr := flat_map lower_cp s.

Fixpoint starts_with (p s : pystr) : bool :=
  match p, s with
  | [], _ => true
  | a :: p', b :: s' => (a =? b) && starts_with p' s'
  | _ :: _, [] => false
  end.

(** [needle in hay] *)
Fixpoint contains (needle hay : pystr) : bool :=
  starts_with needle hay ||
  match hay with
  | [] => false
  | _ :: hay' => contains needle hay'
  end.

(** [sep.join(parts)] *)
Fixpoint join (sep : pystr) (parts : list pystr) : pystr :=
  match parts with
  | [] => []
  | [p] => p
  | p :: rest => p ++ sep ++ join sep rest
  end.

(** *** [re.split(r"\s*[–-]\s*", s)]

    The pattern matches at a position exactly when the maximal run of
    whitespace there is followed by a dash; the match then extends over
    the maximal run of whitespace after the dash.  [match_sep] returns the
    text left after a match at the start of [s]. *)
Definition match_sep (s : pystr) : option pystr :=
  match lstrip s with
  | c :: r => if is_dash c then Some (lstrip r) else None
  | [] => None
  end.

(** The leftmost match: the text before it and the text after it. *)
Fixpoint find_sep (s : pystr) : option (pystr * pystr) :=
  match match_sep s with
  | Some r => Some ([], r)
  | None =>
    match s with
    | [] => None
    | c :: s' =>
      match find_sep s' with
      | Some (b, r) => Some (c :: b, r)
      | None => None
      end
    end
  end.

(** Every match consumes at least the dash, so [length s] rounds are
    enough to reach the end of [s]. *)
Fixpoint re_split_fuel (n : nat) (s : pystr) : list pystr :=
  match n with
  | O => [s]
  | S n' =>
    match find_sep s with
    | None => [s]
    | Some (b, r) => b :: re_split_fuel n' r
    end
  end.

Definition re_split (s : pystr) : list pystr := re_split_fuel (length s) s.

(** [re.sub(r"[^0-9.]", "", part)] *)
Definition re_sub_non_numeric (part : pystr) : pystr :=
  List.filter is_numeric_char part.

(** ** Exceptions *)

Inductive exn : Type :=
| ValueError
| AttributeError
| IndexError
| SystemExit (code : Z).

Inductive outcome (A : Type) : Type :=
| Return (a : A)
| Raise (e : exn).

Arguments Return {A} a.
Arguments Raise {A} e.

#[global] Instance outcome_ret : MRet outcome := fun A a => Return a.
#[global] Instance outcome_bind : MBind outcome := fun A B f m =>
  match m with
  | Return a => f a
  | Raise e => Raise e
  end.

(** ** Numbers *)

Definition digit_value (c : N) : N := c - 0x30.

Definition digits_value (s : pystr) : N :=
  fold_left (fun acc c => acc * 10 + digit_value c) s 0.

(** [sys.int_info.default_max_str_digits]: the longest run of digits that
    [int()] converts, and the longest that [str()] gives for an int. *)
Definition int_max_str_digits : nat := 4300.

(** [int(num_raw)] on the text the formatter passes to it, which holds
    nothing but the characters [0-9.]: a non-empty run of ASCII digits is
    an integer literal, anything else raises [ValueError]; so does a run
    of more than [int_max_str_digits] digits. *)
Definition py_int (s : pystr) : outcome N :=
  match s with
  | [] => Raise ValueError
  | _ :: _ =>
    if forallb is_digit s then
      if Nat.ltb int_max_str_digits (length s) then Raise ValueError
      else Return (digits_value s)
    else Raise ValueError
  end.

Fixpoint uint_chars (u : Decimal.uint) : pystr :=
  match u with
  | Nil => []
  | D0 u' => 0x30 :: uint_chars u'
  | D1 u' => 0x31 :: uint_chars u'
  | D2 u' => 0x32 :: uint_chars u'
  | D3 u' => 0x33 :: uint_chars u'
  | D4 u' => 0x34 :: uint_chars u'
  | D5 u' => 0x35 :: uint_chars u'
  | D6 u' => 0x36 :: uint_chars u'
  | D7 u' => 0x37 :: uint_chars u'
  | D8 u' => 0x38 :: uint_chars u'
  | D9 u' => 0x39 :: uint_chars u'
  end.

(** [str(n)] for a natural number. *)
Definition str_of_N (n : N) : pystr := uint_chars (N.to_uint n).

Definition comma : N := 0x2C.

(** Thousands separators, over the digits least significant first. *)
Fixpoint group3_rev (l : pystr) : pystr :=
  match l with
  | a :: b :: c :: ((_ :: _) as r) => a :: b :: c :: comma :: group3_rev r
  | _ => l
  end.

(** [f"{value:,}"] for a natural number. *)
Definition format_int_commas (n : N) : pystr :=
  rev (group3_rev (rev (str_of_N n))).

(** A non-negative binary64 value: [Finite m e] is [m * 2^e]. *)
Inductive pyfloat : Type :=
| Finite (m : Z) (e : Z)
| Inf.

(** Round [num / den] to the nearest integer, ties to even. *)
Definition round_half_even (num den : Z) : Z :=
  let q := (num / den)%Z in
  let r := (num mod den)%Z in
  if (2 * r <? den)%Z then q
  else if (den <? 2 * r)%Z then (q + 1)%Z
  else if Z.even q then q else (q + 1)%Z.

(** [n / p10 / 2^e] as a fraction of integers. *)
Definition scaled (n p10 e : Z) : Z * Z :=
  if (0 <=? e)%Z then (n, (p10 * 2 ^ e)%Z) else ((n * 2 ^ (- e))%Z, p10).

(** The binary64 value nearest to [n / p10] (round to nearest, ties to
    even; 53 bits; least exponent -1074; overflow to infinity). *)
Definition float_of_ratio (n p10 : Z) : pyfloat :=
  if (n =? 0)%Z then Finite 0 0
  else
    let e1 := (Z.log2 n - Z.log2 p10 - 52)%Z in
    let '(num1, den1) := scaled n p10 e1 in
    let e2 := if (num1 / den1 <? 2 ^ 52)%Z then (e1 - 1)%Z else e1 in
    let e := Z.max e2 (-1074) in
    let '(num, den) := scaled n p10 e in
    let m := round_half_even num den in
    if (971 <? e)%Z || ((e =? 971)%Z && (m =? 2 ^ 53)%Z) then Inf
    else Finite m e.

Fixpoint span_digits (s : pystr) : pystr * pystr :=
  match s with
  | c :: s' =>
    if is_digit c then let '(ds, r) := span_digits s' in (c :: ds, r)
    else ([], s)
  | [] => ([], [])
  end.

(** [float(num_raw)] on text over [0-9.]: digits, at most one point, at
    least one digit; anything else raises [ValueError]. *)
Definition py_float (s : pystr) : outcome pyfloat :=
  let '(ip, r) := span_digits s in
  match r with
  | [] =>
    match ip with
    | [] => Raise ValueError
    | _ :: _ => Return (float_of_ratio (Z.of_N (digits_value ip)) 1)
    end
  | c :: fp =>
    if (c =? dot) && forallb is_digit fp && negb (Nat.eqb (length (ip ++ fp)) 0)
    then Return (float_of_ratio (Z.of_N (digits_value (ip ++ fp)))
                                (10 ^ Z.of_nat (length fp)))
    else Raise ValueError
  end.

(** [f"{value:,.2f}"]: the exact binary value rounded to two decimals
    (ties to even), thousands separators in the integer part. *)
Definition format_float_2f (v : pyfloat) : pystr :=
  match v with
  | Inf => [0x69; 0x6E; 0x66]
  | Finite m e =>
    let r := if (0 <=? e)%Z then (m * 2 ^ e * 100)%Z
             else round_half_even (m * 100) (2 ^ (- e)) in
    let cents := Z.to_N (r mod 100) in
    format_int_commas (Z.to_N (r / 100))
      ++ [dot; 0x30 + cents / 10; 0x30 + cents mod 10]
  end.

(** ** The price formatter *)

Definition peso : N := 0x20B1.
Definition request : pystr := Eval cbv in u8 "request".
Definition price_on_request : pystr := Eval cbv in u8 "Price on Request".
Definition range_sep : pystr := Eval cbv in u8 " – ".

(** Values that reach the formatter or sit in a spreadsheet cell.  [PyObj]
    stands for any other object (a float, a date), given by its truth
    value and its [str()].  [PyInt z] stands for an int that [str()]
    renders, that is of at most [int_max_str_digits] digits: the
    spreadsheet reader yields no other, and on a longer one [str()] itself
    raises [ValueError], which this type leaves out; the statements on
    [PyInt] outside a sheet carry that bound. *)
Inductive pyval : Type :=
| PyNone
| PyStr (s : pystr)
| PyInt (z : Z)
| PyBool (b : bool)
| PyObj (truthy : bool) (text : pystr).

Definition str_of_Z (z : Z) : pystr :=
  if (z <? 0)%Z then 0x2D :: str_of_N (Z.to_N (- z)) else str_of_N (Z.to_N z).

(** [str(v)] *)
Definition py_str (v : pyval) : pystr :=
  match v with
  | PyNone => u8 "None"
  | PyStr s => s
  | PyInt z => str_of_Z z
  | PyBool true => u8 "True"
  | PyBool false => u8 "False"
  | PyObj _ t => t
  end.

(** Truth value of [v], as tested by [if v] and [not v]. *)
Definition truthy (v : pyval) : bool :=
  match v with
  | PyNone => false
  | PyStr s => negb (Nat.eqb (length s) 0)
  | PyInt z => negb (z =? 0)%Z
  | PyBool b => b
  | PyObj t _ => t
  end.

(** The body of the [try] block: either branch may raise. *)
Definition format_number (num_raw : pystr) : outcome pystr :=
  if existsb (N.eqb dot) num_raw then
    value ← py_float num_raw;
    Return (peso :: format_float_2f value)
  else
    value ← py_int num_raw;
    Return (peso :: format_int_commas value).

(** The loop over the parts, with its two early [return s] and the final
    return after the loop. *)
Fixpoint format_parts (s : pystr) (parts formatted_parts : list pystr)
  : outcome pystr :=
  match parts with
  | [] =>
    match formatted_parts with
    | [p] => Return p
    | _ => Return (join range_sep formatted_parts)
    end
  | part :: parts' =>
    let num_raw := re_sub_non_numeric part in
    match num_raw with
    | [] => Return s
    | _ :: _ =>
      match format_number num_raw with
      | Raise _ => Return s
      | Return formatted =>
        format_parts s parts' (formatted_parts ++ [formatted])
      end
    end
  end.

Definition format_price_range (raw : pyval) : outcome pystr :=
  match raw with
  | PyNone => Return []
  | _ =>
    let s := strip (py_str raw) in
    match s with
    | [] => Return []
    | _ :: _ =>
      if contains request (lower s) then Return price_on_request
      else format_parts s (re_split s) []
    end
  end.

(** ** Effects

    What a run does: the lines it prints, and how it ends. *)

Definition io (A : Type) : Type := list pystr * outcome A.

#[global] Instance io_ret : MRet io := fun A a => ([], Return a).
#[global] Instance io_bind : MBind io := fun A B f m =>
  match m with
  | (out, Return a) => let '(out', r) := f a in (out ++ out', r)
  | (out, Raise e) => (out, Raise e)
  end.

Definition print (line : pystr) : io unit := ([line], Return tt).

Definition lift {A : Type} (r : outcome A) : io A := ([], r).

(** [sys.exit(code)] *)
Definition sys_exit {A : Type} (code : Z) : io A := ([], Raise (SystemExit code)).

(** ** The catalogue *)

Record category_info : Type := {
  csv_name : pystr;
  info_id : pystr;
  info_name : pystr;
  info_subtitle : pystr;
  info_icon : pystr;
  info_description : pystr
}.

Definition CATEGORY_MAPPING : list (pystr * category_info) := Eval cbv in
  [ (u8 "Passenger Vehicles",
     {| csv_name := u8 "Passenger Vehicles.csv";
        info_id := u8 "passenger";
        info_name := u8 "Passenger Vehicles";
        info_subtitle := u8 "Personal & Family";
        info_icon := u8 "👨‍👩‍👧‍👦";
        info_description := u8 "Personal & Family vehicles for everyday comfort" |});
    (u8 "Light Commercial",
     {| csv_name := u8 "Light Commercial.csv";
        info_id := u8 "light-commercial";
        info_name := u8 "Light Commercial Vehicles";
        info_subtitle := u8 "Small Business";
        info_icon := u8 "🏪";
        info_description := u8 "Small Business solutions for efficient operations" |});
    (u8 "Medium Duty Trucks",
     {| csv_name := u8 "Medium Duty Trucks.csv";
        info_id := u8 "medium-duty";
        info_name := u8 "Light to Medium Duty Trucks";
        info_subtitle := u8 "N-Series & F-Series";
        info_icon := u8 "🚛";
        info_description := u8 "N-Series & F-Series for versatile hauling" |});
    (u8 "Heavy Duty GIGA",
     {| csv_name := u8 "Heavy Duty GIGA.csv";
        info_id := u8 "heavy-duty";
        info_name := u8 "Heavy Duty & Special Purpose";
        info_subtitle := u8 "GIGA";
        info_icon := u8 "💪";
        info_description := u8 "GIGA series for demanding operations" |}) ].

(** ** The output document *)

Record model_record : Type := {
  model : pystr;
  variant : pystr;
  priceRange : pystr
}.

Record category : Type := {
  id : pystr;
  name : pystr;
  subtitle : pystr;
  icon : pystr;
  description : pystr;
  models : list model_record
}.

Record document : Type := { categories : list category }.

Definition make_category (info : category_info) (ms : list model_record) : category :=
  {| id := info_id info; name := info_name info; subtitle := info_subtitle info;
     icon := info_icon info; description := info_description info; models := ms |}.

(** [save_json(data)]: the document goes to [data/vehicles.json] (it is the
    result of the run here) and a summary is printed.  Creating the
    directory and writing the file are taken to succeed. *)
Definition save_json (data : document) : io document :=
  _ ← print (u8 "✓ Successfully generated 'data/vehicles.json'");
  _ ← print (u8 "  Total categories: "
             ++ str_of_N (N.of_nat (length (categories data))));
  (List.map (fun cat => u8 "  - " ++ name cat ++ u8 ": "
                        ++ str_of_N (N.of_nat (length (models cat)))
                        ++ u8 " models")
            (categories data),
   Return data).

(** What one turn of an extraction loop does. *)
Inductive row_action : Type :=
| Stop
| Skip
| Emit (r : model_record).

(** ** Delimited text *)

(** A row of [csv.DictReader]: field name to field text, or to [None]
    where the record is shorter than the header. *)
Abbreviation csv_row := (gmap pystr (option pystr)).

Definition dict_row (fieldnames record : list pystr) : csv_row :=
  let d := fold_left (fun (d : csv_row) kv => <[kv.1 := Some kv.2]> d)
                     (zip fieldnames record) ∅ in
  fold_left (fun (d : csv_row) k => <[k := None]> d)
            (drop (length record) fieldnames) d.

Definition is_blank (record : list pystr) : bool :=
  match record with [] => true | _ :: _ => false end.

(** [csv.DictReader(f)] over the records of the file: the first record
    names the fields, blank records are passed over.  (Fields beyond the
    header go under the key [None], which no lookup below reaches.) *)
Definition DictReader (records : list (list pystr)) : list csv_row :=
  match records with
  | [] => []
  | fieldnames :: rest =>
    List.map (dict_row fieldnames) (List.filter (fun r => negb (is_blank r)) rest)
  end.

(** [row.get(key, default)]; [None] is Python's [None]. *)
Definition row_get (row : csv_row) (key : pystr) (default : option pystr)
  : option pystr :=
  match row !! key with
  | Some v => v
  | None => default
  end.

(** [not v] for a field. *)
Definition field_falsy (v : option pystr) : bool :=
  match v with
  | None => true
  | Some [] => true
  | Some (_ :: _) => false
  end.

(** [v.strip()]: [None] has no such method. *)
Definition field_strip (v : option pystr) : outcome pystr :=
  match v with
  | Some s => Return (strip s)
  | None => Raise AttributeError
  end.

Definition field_value (v : option pystr) : pyval :=
  match v with
  | Some s => PyStr s
  | None => PyNone
  end.

Definition key_Model : pystr := Eval cbv in u8 "Model".
Definition key_Variant : pystr := Eval cbv in u8 "Variant".
Definition key_Price : pystr := Eval cbv in u8 "2026 Price Range (SRP)".

(** The body of the loop over the rows of one file. *)
Definition csv_row_action (row : csv_row) : outcome row_action :=
  if field_falsy (row_get row key_Model None) then Return Stop
  else
    let raw_price := row_get row key_Price (Some []) in
    m ← field_strip (row_get row key_Model (Some []));
    v ← field_strip (row_get row key_Variant (Some []));
    p ← format_price_range (field_value raw_price);
    Return (Emit {| model := m; variant := v; priceRange := p |}).

Fixpoint csv_rows (rows : list csv_row) (models : list model_record)
  : outcome (list model_record) :=
  match rows with
  | [] => Return models
  | row :: rows' =>
    a ← csv_row_action row;
    match a with
    | Stop => Return models
    | Skip => csv_rows rows' models
    | Emit r => csv_rows rows' (models ++ [r])
    end
  end.

Definition csv_warning (info : category_info) : pystr :=
  u8 "Warning: File 'templates/" ++ csv_name info ++ u8 "' not found. Skipping...".

(** The loop over the catalogue; [dir] is the content of [templates/]. *)
Fixpoint csv_categories (dir : gmap pystr (list (list pystr)))
    (mapping : list (pystr * category_info)) (categories : list category)
  : io (list category) :=
  match mapping with
  | [] => mret categories
  | (_, category_info) :: mapping' =>
    match dir !! csv_name category_info with
    | None =>
      _ ← print (csv_warning category_info);
      csv_categories dir mapping' categories
    | Some records =>
      models ← lift (csv_rows (DictReader records) []);
      csv_categories dir mapping' (categories ++ [make_category category_info models])
    end
  end.

(** [csv_to_json()]; [templates] is [None] when there is no [templates/],
    and holds the files of the directory as the records that
    [csv.reader] yields: opening, decoding and parsing a file are taken to
    succeed. *)
Definition csv_to_json (templates : option (gmap pystr (list (list pystr))))
  : io document :=
  match templates with
  | None =>
    _ ← print (u8 "Error: templates/ directory not found.");
    sys_exit 1
  | Some dir =>
    categories ← csv_categories dir CATEGORY_MAPPING [];
    save_json {| categories := categories |}
  end.

(** ** Spreadsheet *)

(** A sheet: its rows from row 1, each the tuple of its cell values. *)
Abbreviation sheet := (list (list pyval)).

(** [ws.iter_rows(min_row=2, values_only=True)] *)
Definition iter_rows_min_row_2 (ws : sheet) : list (list pyval) := drop 1 ws.

(** [row[i]] *)
Definition getitem (row : list pyval) (i : nat) : outcome pyval :=
  match row !! i with
  | Some v => Return v
  | None => Raise IndexError
  end.

(** [cell if cell else ""] *)
Definition or_empty (cell : pyval) : pyval :=
  if truthy cell then cell else PyStr [].

(** The body of the loop over the rows of one sheet. *)
Definition excel_row_action (row : list pyval) : outcome row_action :=
  c0 ← getitem row 0;
  match c0 with
  | PyNone => Return Stop
  | _ =>
    let model := or_empty c0 in
    c1 ← getitem row 1;
    let variant := or_empty c1 in
    c2 ← getitem row 2;
    let price_range := or_empty c2 in
    if truthy model then
      p ← format_price_range price_range;
      Return (Emit {| model := strip (py_str model);
                      variant := strip (py_str variant);
                      priceRange := p |})
    else Return Skip
  end.

Fixpoint excel_rows (rows : list (list pyval)) (models : list model_record)
  : outcome (list model_record) :=
  match rows with
  | [] => Return models
  | row :: rows' =>
    a ← excel_row_action row;
    match a with
    | Stop => Return models
    | Skip => excel_rows rows' models
    | Emit r => excel_rows rows' (models ++ [r])
    end
  end.

Definition excel_warning (sheet_name : pystr) : pystr :=
  u8 "Warning: Sheet '" ++ sheet_name ++ u8 "' not found. Skipping...".

(** The loop over the catalogue; [wb] maps sheet names to sheets. *)
Fixpoint excel_categories (wb : gmap pystr sheet)
    (mapping : list (pystr * category_info)) (categories : list category)
  : io (list category) :=
  match mapping with
  | [] => mret categories
  | (sheet_name, category_info) :: mapping' =>
    match wb !! sheet_name with
    | None =>
      _ ← print (excel_warning sheet_name);
      excel_categories wb mapping' categories
    | Some ws =>
      models ← lift (excel_rows (iter_rows_min_row_2 ws) []);
      excel_categories wb mapping' (categories ++ [make_category category_info models])
    end
  end.

(** [excel_to_json(excel_file)]; [files] maps the paths that exist to the
    workbooks stored there: a file that exists is taken to be a workbook
    that [load_workbook] reads. *)
Definition excel_to_json (files : gmap pystr (gmap pystr sheet)) (excel_file : pystr)
  : io document :=
  match files !! excel_file with
  | None =>
    _ ← print (u8 "Error: File '" ++ excel_file ++ u8 "' not found.");
    sys_exit 1
  | Some wb =>
    categories ← excel_categories wb CATEGORY_MAPPING [];
    save_json {| categories := categories |}
  end.

(** The 0-based index of the first element of [l] that satisfies [p], or
    the length of [l] when there is none. *)
Fixpoint first_index {A : Type} (p : A -> bool) (l : list A) : nat :=
  match l with
  | [] => 0
  | x :: l' => if p x then 0 else S (first_index p l')
  end.

(** ** Predicates of the statements *)

Ltac char_class :=
  unfold is_numeric_char, is_space, is_dash, is_digit, dot in *;
  repeat rewrite ?orb_true_iff, ?andb_true_iff, ?orb_false_iff,
    ?andb_false_iff, ?N.leb_le, ?N.leb_gt, ?N.eqb_eq, ?N.eqb_neq in *;
  lia.

Definition all_space (s : pystr) : Prop := Forall (fun c => is_space c = true) s.

Definition no_space (s : pystr) : Prop := Forall (fun c => is_space c = false) s.

Definition no_dash (s : pystr) : Prop := Forall (fun c => is_dash c = false) s.

(** A part in which [re.sub] leaves nothing. *)
Definition no_numeric (part : pystr) : Prop :=
  Forall (fun c => is_numeric_char c = false) part.

(** A part whose number does not parse: [int] or [float] raises. *)
Definition parse_fails (part : pystr) : Prop :=
  exists e, format_number (re_sub_non_numeric part) = Raise e.

Definition unparseable (part : pystr) : Prop := no_numeric part \/ parse_fails part.

(** A numeric price range, piece by piece: segments of digits (at most
    [int_max_str_digits] of them, the longest run that [int()] converts),
    each with an optional prefix (currency letters or any other character
    that is not whitespace, a dash, a digit or a point), and between two
    segments a dash with optional whitespace on either side. *)
Record segment : Type := { prefix : pystr; digits : pystr }.

Record separator : Type := { before : pystr; dash : N; after : pystr }.

Definition is_prefix_char (c : N) : bool :=
  negb (is_space c || is_dash c || is_numeric_char c).

Definition segment_ok (sg : segment) : bool :=
  forallb is_prefix_char (prefix sg)
  && negb (Nat.eqb (length (digits sg)) 0)
  && forallb is_digit (digits sg)
  && Nat.leb (length (digits sg)) int_max_str_digits.

Definition separator_ok (sp : separator) : bool :=
  forallb is_space (before sp) && is_dash (dash sp) && forallb is_space (after sp).

Definition segment_text (sg : segment) : pystr := prefix sg ++ digits sg.

Definition separator_text (sp : separator) : pystr :=
  before sp ++ dash sp :: after sp.

Fixpoint range_text (first : segment) (rest : list (separator * segment)) : pystr :=
  segment_text first ++
  match rest with
  | [] => []
  | (sp, sg) :: rest' => separator_text sp ++ range_text sg rest'
  end.

(** The glyph, then the integer with a comma before every group of three
    digits. *)
Definition segment_formatted (sg : segment) : pystr :=
  peso :: format_int_commas (digits_value (digits sg)).

Definition pieces_ok (rest : list (separator * segment)) : bool :=
  forallb (fun '(sp, sg) => separator_ok sp && segment_ok sg) rest.

Record segment_facts (sg : segment) : Prop := {
  sf_digits : Forall (fun c => is_digit c = true) (digits sg);
  sf_nonempty : digits sg <> [];
  sf_no_space : no_space (segment_text sg);
  sf_no_dash : no_dash (segment_text sg);
  sf_sub : re_sub_non_numeric (segment_text sg) = digits sg;
  sf_short : (length (digits sg) <= int_max_str_digits)%nat
}.

(** The "Model" field of a row is missing or empty: the test of the loop
    over a file. *)
Definition csv_model_missing (row : csv_row) : bool :=
  field_falsy (row_get row key_Model None).

(** The "Variant" field of a row is not [None]: the row is not cut short
    before that column. *)
Definition csv_variant_ok (row : csv_row) : bool :=
  match row !! key_Variant with
  | Some None => false
  | _ => true
  end.

(** The first cell of a row is [None]: the test that ends the loop over a
    sheet. *)
Definition first_cell_none (row : list pyval) : bool :=
  match row with
  | PyNone :: _ => true
  | _ => false
  end.

Definition first_cell_truthy (row : list pyval) : bool :=
  match row with
  | c :: _ => truthy c
  | [] => false
  end.

(** A cell without content: no value or the empty text. *)
Definition cell_empty (v : pyval) : bool :=
  match v with
  | PyNone => true
  | PyStr [] => true
  | _ => false
  end.

Definition first_cell_empty (row : list pyval) : bool :=
  match row with
  | c :: _ => cell_empty c
  | [] => true
  end.

(** The value returned by a run that ended well. *)
Definition returned {A : Type} (default : A) (r : outcome A) : A :=
  match r with
  | Return a => a
  | Raise _ => default
  end.

(** A row of a sheet at least three columns wide. *)
Definition wide (row : list pyval) : Prop := (3 <= length row)%nat.

(** The two loops over the catalogue have one shape: [find] looks up the
    source of an entry and, where there is one, extracts its records;
    [warn] is the line printed where there is none. *)
Fixpoint category_loop
    (find : pystr * category_info -> option (outcome (list model_record)))
    (warn : pystr * category_info -> pystr)
    (mapping : list (pystr * category_info)) (categories : list category)
  : io (list category) :=
  match mapping with
  | [] => mret categories
  | entry :: mapping' =>
    match find entry with
    | None =>
      _ ← print (warn entry);
      category_loop find warn mapping' categories
    | Some extracted =>
      models ← lift extracted;
      category_loop find warn mapping' (categories ++ [make_category entry.2 models])
    end
  end.

Definition csv_find (dir : gmap pystr (list (list pystr)))
    (entry : pystr * category_info) : option (outcome (list model_record)) :=
  match dir !! csv_name entry.2 with
  | Some records => Some (csv_rows (DictReader records) [])
  | None => None
  end.

Definition excel_find (wb : gmap pystr sheet)
    (entry : pystr * category_info) : option (outcome (list model_record)) :=
  match wb !! entry.1 with
  | Some ws => Some (excel_rows (iter_rows_min_row_2 ws) [])
  | None => None
  end.

Definition has_source
    (find : pystr * category_info -> option (outcome (list model_record)))
    (entry : pystr * category_info) : bool :=
  match find entry with
  | Some _ => true
  | None => false
  end.

(** ** Further notions of the proofs *)

(** The text that follows a match, with whitespace [b] after it. *)
Definition trail (b r : pystr) : pystr :=
  match r with
  | [] => []
  | _ :: _ => r ++ b
  end.

(** Whether a part can be formatted rests on its numeric characters
    alone. *)
Definition unparseable_number (num_raw : pystr) : Prop :=
  num_raw = [] \/ exists e, format_number num_raw = Raise e.

Definition count_dots (s : pystr) : nat := length (List.filter (N.eqb dot) s).

Definition numeric (s : pystr) : Prop := Forall (fun c => is_numeric_char c = true) s.

Definition char_digit (c : N) (u : Decimal.uint) : Decimal.uint :=
  match c - 0x30 with
  | 0 => D0 u | 1 => D1 u | 2 => D2 u | 3 => D3 u | 4 => D4 u
  | 5 => D5 u | 6 => D6 u | 7 => D7 u | 8 => D8 u | _ => D9 u
  end.

Fixpoint uint_of_chars (s : pystr) : Decimal.uint :=
  match s with
  | [] => Nil
  | c :: s' => char_digit c (uint_of_chars s')
  end.

Fixpoint lstrip_zeros (s : pystr) : pystr :=
  match s with
  | c :: s' => if c =? 0x30 then lstrip_zeros s' else s
  | [] => []
  end.

(** The digits without leading zeros; "0" when nothing else is left. *)
Definition canonical_digits (s : pystr) : pystr :=
  match lstrip_zeros s with
  | [] => [0x30]
  | r => r
  end.

Definition all_digits (s : pystr) : Prop := Forall (fun c => is_digit c = true) s.

(** [groups] cut [ds] into a first group of one to three digits and
    further groups of three. *)
Definition thousands_groups (groups : list pystr) (ds : pystr) : Prop :=
  concat groups = ds
  /\ match groups with
     | [] => False
     | g :: gs =>
       (1 <= length g <= 3)%nat /\ Forall (fun g' => length g' = 3%nat) gs
     end.

Ltac eval_char_digit :=
  unfold char_digit;
  match goal with
  | |- context [?a - ?b] =>
    let v := eval vm_compute in (a - b) in change (a - b) with v
  end;
  cbv iota beta.

Ltac each_digit c H :=
  let D := fresh "D" in
  assert (c = 0x30 \/ c = 0x31 \/ c = 0x32 \/ c = 0x33 \/ c = 0x34
          \/ c = 0x35 \/ c = 0x36 \/ c = 0x37 \/ c = 0x38 \/ c = 0x39) as D
    by (clear - H; char_class);
  destruct D as [->|[->|[->|[->|[->|[->|[->|[->|[->| ->]]]]]]]]].

(** A run of digits one longer than [int()] converts. *)
Definition long_digits : pystr := repeat 0x31%N (S int_max_str_digits).

Definition long_segment : segment := {| prefix := []; digits := long_digits |}.

(** The values that [str()] renders: all but an int of more than
    [int_max_str_digits] digits, on which [str()] raises [ValueError]. *)
Definition str_returns (v : pyval) : bool :=
  match v with
  | PyInt z => Nat.leb (length (str_of_N (Z.abs_N z))) int_max_str_digits
  | _ => true
  end.

(** ** Sample inputs

    A [templates/] directory and a workbook in which the medium-duty
    category has no source. *)
Definition sample_header : list pystr :=
  [u8 "Model"; u8 "Variant"; u8 "2026 Price Range (SRP)"].

Definition sample_templates : gmap pystr (list (list pystr)) :=
  {[ u8 "Passenger Vehicles.csv" :=
       [ sample_header;
         [u8 "mu-X"; u8 "LS-E 4x2 AT"; u8 "P1690000 - P2450000"];
         [u8 "D-MAX"; u8 "LS"; u8 "Price on Request"] ];
     u8 "Light Commercial.csv" :=
       [ sample_header; [u8 "Traviz"; u8 "L"; u8 "1070000-1140000"] ];
     u8 "Heavy Duty GIGA.csv" := [ sample_header ] ]}.

Definition sample_workbook : gmap pystr sheet :=
  {[ u8 "Passenger Vehicles" :=
       [ [PyStr (u8 "Model"); PyStr (u8 "Variant"); PyStr (u8 "Price")];
         [PyStr (u8 "mu-X"); PyStr (u8 "LS-E 4x2 AT"); PyStr (u8 "P1690000 - P2450000")];
         [PyStr (u8 "D-MAX"); PyNone; PyInt 1070000];
         [PyNone; PyNone; PyNone] ];
     u8 "Light Commercial" :=
       [ [PyStr (u8 "Model"); PyStr (u8 "Variant"); PyStr (u8 "Price")];
         [PyStr (u8 "Traviz"); PyStr (u8 "L"); PyStr (u8 "TBD")] ];
     u8 "Heavy Duty GIGA" :=
       [ [PyStr (u8 "Model"); PyStr (u8 "Variant"); PyStr (u8 "Price")] ] ]}.

Definition sample_files : gmap pystr (gmap pystr sheet) :=
  {[ u8 "vehicles.xlsx" := sample_workbook ]}.


Definition no_document : document := {| categories := [] |}.




(** ** The entry point *)

(** The script run as a program: [argv] is [sys.argv], which starts with
    the program name; a second element names the workbook. *)
Definition main (argv : list pystr)
    (templates : option (gmap pystr (list (list pystr))))
    (files : gmap pystr (gmap pystr sheet)) : io document :=
  match argv with
  | _ :: excel_file :: _ => excel_to_json files excel_file
  | _ => csv_to_json templates
  end.

(** ** Notions of the further properties *)

(** Text without whitespace at either end. *)
Definition trimmed (s : pystr) : Prop := strip s = s.

(** A formatted part: the glyph, then text that does not end in
    whitespace. *)
Definition glyph_shaped (f : pystr) : Prop :=
  exists body last, f = peso :: body ++ [last] /\ is_space last = false.

(** A formatted integer part. *)
Definition int_shaped (f : pystr) : Prop :=
  exists n, (length (str_of_N n) <= int_max_str_digits)%nat
            /\ f = peso :: format_int_commas n.

Definition no_dot (s : pystr) : Prop := Forall (fun c => (dot =? c) = false) s.

(** The characters of a formatted integer range. *)
Definition is_plain (c : N) : bool :=
  is_digit c || (c =? comma) || (c =? peso) || (c =? 0x20) || (c =? 0x2013).

(** The text that the formatter returns. *)
Definition price_text (raw : pyval) : pystr := returned [] (format_price_range raw).

Definition record_trimmed (r : model_record) : Prop :=
  trimmed (model r) /\ trimmed (variant r) /\ trimmed (priceRange r).

(** Text without the letter r, small or capital. *)
Definition no_r (s : pystr) : Prop := Forall (fun c => c <> 0x72 /\ c <> 0x52) s.

Record int_shaped_facts (f : pystr) : Prop := {
  isf_no_space : no_space f;
  isf_no_dash : no_dash f;
  isf_no_r : no_r f;
  isf_head : exists t, f = peso :: t;
  isf_again : re_sub_non_numeric f <> []
              /\ format_number (re_sub_non_numeric f) = Return f
}.

(** [v] as text, [None] counting as empty. *)
Definition field_text (v : option pystr) : pystr := default [] v.

(** The record that the loop over a file builds from a row. *)
Definition csv_row_record (row : csv_row) : model_record :=
  {| model := strip (field_text (row_get row key_Model (Some [])));
     variant := strip (field_text (row_get row key_Variant (Some [])));
     priceRange := price_text (field_value (row_get row key_Price (Some []))) |}.

(** The cell at [i], [None] where the row is shorter. *)
Definition cell (row : list pyval) (i : nat) : pyval := default PyNone (row !! i).

(** The record that the loop over a sheet builds from a row. *)
Definition excel_record (row : list pyval) : model_record :=
  {| model := strip (py_str (cell row 0));
     variant := strip (py_str (or_empty (cell row 1)));
     priceRange := price_text (or_empty (cell row 2)) |}.

(** A row too short for the cells that the loop reads: no cell at all,
    or fewer than three behind a first cell that is not [None]. *)
Definition excel_row_short (row : list pyval) : bool :=
  match row with
  | [] => true
  | PyNone :: _ => false
  | _ :: _ => Nat.ltb (length row) 3
  end.

(** The header of the template files. *)
Definition template_header : list pystr := [key_Model; key_Variant; key_Price].

(** The record built from the fields of a record of a template file. *)
Definition csv_fields_record (fields : list pystr) : model_record :=
  {| model := strip (field_text (fields !! 0%nat));
     variant := strip (field_text (fields !! 1%nat));
     priceRange := price_text (field_value (fields !! 2%nat)) |}.

Definition first_field_empty (fields : list pystr) : bool :=
  match fields with
  | [] :: _ => true
  | _ => false
  end.

(** The records of a file that are not blank. *)
Definition nonblank (records : list (list pystr)) : list (list pystr) :=
  List.filter (fun r => negb (is_blank r)) records.

(** A record with its first two fields. *)
Definition has_variant (fields : list pystr) : bool := Nat.leb 2 (length fields).

(** The lines that [save_json] prints. *)
Definition summary (data : document) : list pystr := (save_json data).1.

(** The records extracted for an entry of the catalogue, none where it has
    no source. *)
Definition found_models
    (find : pystr * category_info -> option (outcome (list model_record)))
    (entry : pystr * category_info) : list model_record :=
  match find entry with
  | Some extracted => returned [] extracted
  | None => []
  end.

Definition lacks_source
    (find : pystr * category_info -> option (outcome (list model_record)))
    (entry : pystr * category_info) : bool :=
  negb (has_source find entry).

(** The two decimals shown for the digits after the point. *)
Definition cents_text (fp : pystr) : pystr :=
  match fp with
  | [] => [0x30; 0x30]
  | [d] => [d; 0x30]
  | d1 :: d2 :: _ => [d1; d2]
  end.

(** * Properties *)

Example decode_glyphs :
  u8 "₱ – ." = [0x20B1; 0x20; 0x2013; 0x20; 0x2E].
Proof. reflexivity. Qed.

Example split_example :
  re_split (u8 "P1070000 - P1140000") = [u8 "P1070000"; u8 "P1140000"].
Proof. reflexivity. Qed.

Example split_example2 :
  re_split (u8 "a  –b-- c -") = [u8 "a"; u8 "b"; []; u8 "c"; []].
Proof. reflexivity. Qed.

Example format_doc_1 :
  format_price_range (PyStr (u8 "P1070000 - P1140000"))
  = Return (u8 "₱1,070,000 – ₱1,140,000").
Proof. vm_compute. reflexivity. Qed.

Example format_decimal :
  format_price_range (PyStr (u8 "₱2,500,000.50")) = Return (u8 "₱2,500,000.50").
Proof. vm_compute. reflexivity. Qed.

Example format_float_cases :
  List.map (fun t => format_price_range (PyStr (u8 t)))
    ["0.125"; "2.675"; ".5"; "5."; "1.2.3"; "."; "1234567.891"; "0.1-0.2"; "99999999999999999999999.0"]%string
  = List.map (fun t => Return (u8 t))
    ["₱0.12"; "₱2.67"; "₱0.50"; "₱5.00"; "1.2.3"; "."; "₱1,234,567.89"; "₱0.10 – ₱0.20"; "₱99,999,999,999,999,991,611,392.00"]%string.
Proof. vm_compute. reflexivity. Qed.

(** ** Character classes *)

Lemma dash_not_space c : is_dash c = true -> is_space c = false.
Proof. intros H. destruct (is_space c) eqn:E; [exfalso|reflexivity]. char_class. Qed.

Lemma digit_not_space c : is_digit c = true -> is_space c = false.
Proof. intros H. destruct (is_space c) eqn:E; [exfalso|reflexivity]. char_class. Qed.

Lemma digit_not_dash c : is_digit c = true -> is_dash c = false.
Proof. intros H. destruct (is_dash c) eqn:E; [exfalso|reflexivity]. char_class. Qed.

Lemma digit_numeric c : is_digit c = true -> is_numeric_char c = true.
Proof. intros H. unfold is_numeric_char. now rewrite H. Qed.

Lemma digit_not_dot c : is_digit c = true -> (dot =? c) = false.
Proof. intros H. destruct (dot =? c) eqn:E; [exfalso|reflexivity]. char_class. Qed.

(** ** Stripping *)

Lemma lstrip_all_space s : all_space s -> lstrip s = [].
Proof. induction 1 as [|c s Hc _ IH]; simpl; [reflexivity|]. now rewrite Hc. Qed.

Lemma lstrip_app_space a s : all_space a -> lstrip (a ++ s) = lstrip s.
Proof. induction 1 as [|c a Hc _ IH]; simpl; [reflexivity|]. now rewrite Hc. Qed.

Lemma lstrip_split s : exists a, all_space a /\ s = a ++ lstrip s.
Proof.
  induction s as [|c s [a [Ha Hs]]]; simpl.
  - exists []. split; [constructor|reflexivity].
  - destruct (is_space c) eqn:E.
    + exists (c :: a). split; [now constructor|]. simpl. now rewrite <- Hs.
    + exists []. split; [constructor|reflexivity].
Qed.

Lemma lstrip_head c s : is_space c = false -> lstrip (c :: s) = c :: s.
Proof. intros H. simpl. now rewrite H. Qed.

Lemma lstrip_not_space_head s c r : lstrip s = c :: r -> is_space c = false.
Proof.
  induction s as [|d s IH]; simpl; [discriminate|].
  destruct (is_space d) eqn:E; [exact IH|]. intros [= <- <-]. exact E.
Qed.

Lemma all_space_rev s : all_space s -> all_space (rev s).
Proof. apply List.Forall_rev. Qed.

Lemma strip_all_space s : all_space s -> strip s = [].
Proof. intros H. unfold strip, rstrip. now rewrite (lstrip_all_space s H). Qed.

(** The stripped text sits inside the original between two runs of
    whitespace. *)
Lemma strip_split s : exists a b, all_space a /\ all_space b /\ s = a ++ strip s ++ b.
Proof.
  destruct (lstrip_split s) as [a [Ha Hs]].
  destruct (lstrip_split (rev (lstrip s))) as [b [Hb Hr]].
  exists a, (rev b). split; [exact Ha|]. split; [now apply all_space_rev|].
  unfold strip, rstrip. rewrite <- rev_app_distr, <- Hr, rev_involutive. exact Hs.
Qed.

Lemma rstrip_last s c : is_space c = false -> rstrip (s ++ [c]) = s ++ [c].
Proof.
  intros H. unfold rstrip. rewrite rev_app_distr. simpl. rewrite H.
  simpl. now rewrite rev_involutive.
Qed.

(** ** Substrings *)

Lemma starts_with_spec p s : starts_with p s = true <-> exists t, s = p ++ t.
Proof.
  revert s. induction p as [|a p IH]; intros s; simpl.
  - split; [intros _; now exists s|reflexivity].
  - destruct s as [|b s].
    + split; [discriminate|]. intros [t Ht]. discriminate.
    + rewrite andb_true_iff, N.eqb_eq, IH. split.
      * intros [-> [t ->]]. now exists t.
      * intros [t [= -> ->]]. split; [reflexivity|now exists t].
Qed.

Lemma contains_spec needle hay :
  contains needle hay = true <-> exists pre post, hay = pre ++ needle ++ post.
Proof.
  induction hay as [|c hay IH]; simpl.
  - rewrite orb_false_r, starts_with_spec. split.
    + intros [t Ht]. now exists [], t.
    + intros [pre [post H]]. destruct pre; [now exists post|discriminate].
  - rewrite orb_true_iff, starts_with_spec, IH. split.
    + intros [[t Ht]|[pre [post H]]].
      * now exists [], t.
      * exists (c :: pre), post. simpl. now rewrite H.
    + intros [[|d pre] [post H]].
      * left. now exists post.
      * right. injection H as -> H. now exists pre, post.
Qed.

Lemma contains_drop_space_l needle a x :
  needle <> [] -> no_space needle -> all_space a ->
  contains needle (a ++ x) = true -> contains needle x = true.
Proof.
  intros Hne Hn Ha. induction Ha as [|c a Hc _ IH]; simpl; [trivial|].
  rewrite orb_true_iff. intros [H|H]; [|now apply IH].
  exfalso. destruct needle as [|d needle]; [congruence|].
  simpl in H. apply andb_true_iff in H as [H _]. apply N.eqb_eq in H as ->.
  inversion Hn; congruence.
Qed.

Lemma contains_rev needle hay :
  contains needle hay = contains (rev needle) (rev hay).
Proof.
  apply eq_true_iff_eq. rewrite !contains_spec. split; intros [pre [post H]].
  - exists (rev post), (rev pre). rewrite H, !rev_app_distr. now rewrite app_assoc.
  - exists (rev post), (rev pre). apply (f_equal (@rev N)) in H.
    rewrite rev_involutive, !rev_app_distr, !rev_involutive in H.
    now rewrite H, app_assoc.
Qed.

Lemma contains_drop_space_r needle x b :
  needle <> [] -> no_space needle -> all_space b ->
  contains needle (x ++ b) = true -> contains needle x = true.
Proof.
  intros Hne Hn Hb H. rewrite contains_rev in *. rewrite rev_app_distr in H.
  apply contains_drop_space_l with (a := rev b); trivial.
  - intros E. apply Hne. apply (f_equal (@rev N)) in E. now rewrite rev_involutive in E.
  - now apply List.Forall_rev.
  - now apply all_space_rev.
Qed.

Lemma lower_app a b : lower (a ++ b) = lower a ++ lower b.
Proof. apply flat_map_app. Qed.

Lemma lower_all_space a : all_space a -> all_space (lower a).
Proof.
  induction 1 as [|c a Hc _ IH]; simpl; [constructor|].
  assert (lower_cp c = [c]) as ->.
  { unfold lower_cp.
    destruct ((0x41 <=? c) && (c <=? 0x5A)) eqn:E1; [exfalso; char_class|].
    destruct (c =? 0x130) eqn:E2; [exfalso; char_class|].
    destruct (c =? 0x212A) eqn:E3; [exfalso; char_class|]. reflexivity. }
  simpl. now constructor.
Qed.

Lemma request_no_space : no_space request.
Proof. repeat constructor. Qed.

(** Whitespace around the text plays no part in the test for "request". *)
Lemma contains_request_strip s :
  contains request (lower s) = true -> contains request (lower (strip s)) = true.
Proof.
  destruct (strip_split s) as [a [b [Ha [Hb Hs]]]]. intros H.
  rewrite Hs, !lower_app in H.
  apply contains_drop_space_l in H;
    [|discriminate|exact request_no_space|now apply lower_all_space].
  apply contains_drop_space_r in H;
    [|discriminate|exact request_no_space|now apply lower_all_space].
  exact H.
Qed.

(** ** Splitting *)

Lemma lstrip_length s : (length (lstrip s) <= length s)%nat.
Proof. induction s as [|c s IH]; simpl; [lia|]. destruct (is_space c); simpl; lia. Qed.

Lemma match_sep_length s r : match_sep s = Some r -> (length r < length s)%nat.
Proof.
  unfold match_sep. pose proof (lstrip_length s) as Hs.
  destruct (lstrip s) as [|c r0]; [discriminate|].
  destruct (is_dash c); [|discriminate]. intros [= <-].
  pose proof (lstrip_length r0). simpl in Hs. lia.
Qed.

Lemma find_sep_length s b r : find_sep s = Some (b, r) -> (length r < length s)%nat.
Proof.
  revert b. induction s as [|c s IH]; intros b; simpl.
  - destruct (match_sep []) eqn:E; [|discriminate].
    apply match_sep_length in E. simpl in E. lia.
  - destruct (match_sep (c :: s)) as [r'|] eqn:E.
    + intros [= <- <-]. apply match_sep_length in E. exact E.
    + destruct (find_sep s) as [[b' r']|]; [|discriminate].
      intros [= <- <-]. specialize (IH b' eq_refl). lia.
Qed.

Lemma re_split_fuel_irrel n m s :
  (length s <= n)%nat -> (length s <= m)%nat -> re_split_fuel n s = re_split_fuel m s.
Proof.
  revert m s. induction n as [|n IH]; intros m s Hn Hm.
  - destruct s; [|simpl in Hn; lia]. destruct m; reflexivity.
  - destruct m as [|m].
    + destruct s; [reflexivity|simpl in Hm; lia].
    + simpl. destruct (find_sep s) as [[b r]|] eqn:E; [|reflexivity].
      apply find_sep_length in E. f_equal. apply IH; lia.
Qed.

(** [re_split] takes the text before the leftmost match and goes on with
    the text after it: the fuel never runs out. *)
Lemma re_split_unfold s :
  re_split s = match find_sep s with
               | None => [s]
               | Some (b, r) => b :: re_split r
               end.
Proof.
  unfold re_split. destruct s as [|c s]; [reflexivity|].
  cbn [length re_split_fuel].
  destruct (find_sep (c :: s)) as [[b r]|] eqn:E; [|reflexivity].
  apply find_sep_length in E. simpl in E. f_equal. apply re_split_fuel_irrel; lia.
Qed.

Lemma match_sep_no_dash s : no_dash s -> match_sep s = None.
Proof.
  intros H. unfold match_sep. destruct (lstrip_split s) as [a [_ Hs]].
  destruct (lstrip s) as [|c r]; [reflexivity|].
  assert (is_dash c = false) as ->; [|reflexivity].
  rewrite Hs in H. apply Forall_app in H as [_ H]. now inversion H.
Qed.

Lemma find_sep_no_dash s : no_dash s -> find_sep s = None.
Proof.
  induction 1 as [|c s Hc Hs IH].
  - reflexivity.
  - simpl. rewrite (match_sep_no_dash (c :: s)); [|now constructor]. now rewrite IH.
Qed.

Lemma re_split_no_dash s : no_dash s -> re_split s = [s].
Proof. intros H. rewrite re_split_unfold. now rewrite find_sep_no_dash. Qed.

Lemma find_sep_here s r : match_sep s = Some r -> find_sep s = Some ([], r).
Proof. intros H. destruct s; cbn [find_sep]; now rewrite H. Qed.

Lemma find_sep_later c s :
  match_sep (c :: s) = None ->
  find_sep (c :: s) = match find_sep s with
                      | Some (b, r) => Some (c :: b, r)
                      | None => None
                      end.
Proof. intros H. cbn [find_sep]. now rewrite H. Qed.

(** A part free of whitespace and dashes, then whitespace, a dash and
    whitespace again: the leftmost match is that separator. *)
Lemma find_sep_part part w1 d w2 rest :
  no_space part -> no_dash part ->
  all_space w1 -> is_dash d = true -> all_space w2 -> lstrip rest = rest ->
  find_sep (part ++ w1 ++ d :: w2 ++ rest) = Some (part, rest).
Proof.
  intros Hs Hd H1 Hdash H2 Hrest. induction Hs as [|c part Hc Hs IH].
  - apply find_sep_here. unfold match_sep. cbn [app].
    rewrite (lstrip_app_space w1); [|exact H1].
    rewrite lstrip_head; [|now apply dash_not_space]. rewrite Hdash.
    rewrite (lstrip_app_space w2); [|exact H2]. now rewrite Hrest.
  - inversion Hd as [|? ? Hdc Hd']; subst. cbn [app].
    rewrite find_sep_later.
    + now rewrite (IH Hd').
    + unfold match_sep. rewrite lstrip_head; [|exact Hc]. now rewrite Hdc.
Qed.

(** ** The loop over the parts *)

Lemma no_numeric_sub part : no_numeric part -> re_sub_non_numeric part = [].
Proof.
  unfold re_sub_non_numeric. induction 1 as [|c part Hc _ IH]; simpl; [reflexivity|].
  now rewrite Hc.
Qed.

Lemma join_single_or_many (fps : list pystr) :
  match fps with
  | [p] => Return p
  | _ => Return (join range_sep fps)
  end = Return (join range_sep fps).
Proof. destruct fps as [|p [|q fps]]; reflexivity. Qed.

Lemma format_parts_total s parts acc : exists out, format_parts s parts acc = Return out.
Proof.
  revert acc. induction parts as [|part parts IH]; intros acc; simpl.
  - rewrite join_single_or_many. eauto.
  - destruct (re_sub_non_numeric part); [eauto|].
    destruct (format_number _); [apply IH|eauto].
Qed.

(** One part that cannot be formatted and the loop returns [s], whatever
    was formatted before it. *)
Lemma format_parts_fail s parts acc :
  Exists unparseable parts -> format_parts s parts acc = Return s.
Proof.
  intros H. revert acc. induction H as [part parts H|part parts H IH]; intros acc; simpl.
  - destruct H as [H|[e H]].
    + now rewrite (no_numeric_sub part H).
    + destruct (re_sub_non_numeric part); [reflexivity|]. now rewrite H.
  - destruct (re_sub_non_numeric part); [reflexivity|].
    destruct (format_number _); [apply IH|reflexivity].
Qed.

(** Every part formatted: the loop returns their formatted forms, joined. *)
Lemma format_parts_ok s parts fs acc :
  Forall2 (fun part f => re_sub_non_numeric part <> []
                         /\ format_number (re_sub_non_numeric part) = Return f)
          parts fs ->
  format_parts s parts acc = Return (join range_sep (acc ++ fs)).
Proof.
  intros H. revert acc. induction H as [|part f parts fs [Hne Hf] _ IH]; intros acc; simpl.
  - rewrite app_nil_r. apply join_single_or_many.
  - destruct (re_sub_non_numeric part) eqn:E; [congruence|].
    rewrite Hf, IH, <- app_assoc. reflexivity.
Qed.

Lemma format_price_range_str raw :
  contains request (lower (strip raw)) = false ->
  format_price_range (PyStr raw)
  = match strip raw with
    | [] => Return []
    | _ :: _ => format_parts (strip raw) (re_split (strip raw)) []
    end.
Proof. intros H. unfold format_price_range, py_str. now rewrite H. Qed.

(** ** Whitespace around the text

    The parts of the text and of the stripped text hold the same numeric
    characters, part by part. *)

Lemma space_not_numeric c : is_space c = true -> is_numeric_char c = false.
Proof. intros H. destruct (is_numeric_char c) eqn:E; [exfalso|reflexivity]. char_class. Qed.

Lemma space_not_dash c : is_space c = true -> is_dash c = false.
Proof. intros H. destruct (is_dash c) eqn:E; [exfalso|reflexivity]. char_class. Qed.

Lemma sub_app a b :
  re_sub_non_numeric (a ++ b) = re_sub_non_numeric a ++ re_sub_non_numeric b.
Proof. apply List.filter_app. Qed.

Lemma sub_all_space a : all_space a -> re_sub_non_numeric a = [].
Proof.
  induction 1 as [|c a Hc _ IH]; [reflexivity|].
  unfold re_sub_non_numeric in *. cbn [List.filter]. now rewrite (space_not_numeric c Hc).
Qed.

Lemma match_sep_space c s : is_space c = true -> match_sep (c :: s) = match_sep s.
Proof. intros H. unfold match_sep. cbn [lstrip]. now rewrite H. Qed.

(** Whitespace before the text changes at most the first part, and there
    only its whitespace. *)
Lemma find_sep_lead a s :
  all_space a ->
  match find_sep s with
  | Some (b, r) =>
    exists b', find_sep (a ++ s) = Some (b', r)
               /\ re_sub_non_numeric b' = re_sub_non_numeric b
  | None => find_sep (a ++ s) = None
  end.
Proof.
  induction 1 as [|c a Hc _ IH]; cbn [app].
  - destruct (find_sep s) as [[b r]|]; eauto.
  - destruct (match_sep (c :: a ++ s)) as [r'|] eqn:E.
    + rewrite (find_sep_here _ _ E). rewrite (match_sep_space c _ Hc) in E.
      rewrite (find_sep_here _ _ E) in IH.
      destruct (find_sep s) as [[b r]|]; [|discriminate].
      destruct IH as [b' [[= <- <-] Hsub]]. eauto.
    + rewrite (find_sep_later _ _ E).
      destruct (find_sep s) as [[b r]|].
      * destruct IH as [b' [-> Hsub]]. exists (c :: b'). split; [reflexivity|].
        unfold re_sub_non_numeric in *. cbn [List.filter].
        now rewrite (space_not_numeric c Hc).
      * now rewrite IH.
Qed.

Lemma re_split_lead a s :
  all_space a ->
  map re_sub_non_numeric (re_split (a ++ s)) = map re_sub_non_numeric (re_split s).
Proof.
  intros Ha. rewrite (re_split_unfold (a ++ s)), (re_split_unfold s).
  pose proof (find_sep_lead a s Ha) as H.
  destruct (find_sep s) as [[b r]|].
  - destruct H as [b' [-> Hsub]]. cbn [map]. now rewrite Hsub.
  - rewrite H. cbn [map]. now rewrite sub_app, (sub_all_space a Ha).
Qed.

Lemma lstrip_trail x b : all_space b -> lstrip (x ++ b) = trail b (lstrip x).
Proof.
  intros Hb. induction x as [|c x IH]; cbn [app lstrip].
  - now apply lstrip_all_space.
  - destruct (is_space c); [exact IH|reflexivity].
Qed.

Lemma match_sep_trail x b :
  all_space b -> match_sep (x ++ b) = option_map (trail b) (match_sep x).
Proof.
  intros Hb. unfold match_sep. rewrite (lstrip_trail x b Hb).
  destruct (lstrip x) as [|c r]; [reflexivity|]. cbn [trail app].
  destruct (is_dash c); [|reflexivity]. cbn [option_map].
  now rewrite (lstrip_trail r b Hb).
Qed.

Lemma find_sep_all_space b : all_space b -> find_sep b = None.
Proof.
  intros H. apply find_sep_no_dash. eapply List.Forall_impl; [|exact H].
  exact space_not_dash.
Qed.

Lemma find_sep_trail s b :
  all_space b ->
  find_sep (s ++ b)
  = match find_sep s with
    | Some (p, r) => Some (p, trail b r)
    | None => None
    end.
Proof.
  intros Hb. induction s as [|c s IH].
  - cbn [app]. now rewrite (find_sep_all_space b Hb).
  - cbn [app]. pose proof (match_sep_trail (c :: s) b Hb) as Hm. cbn [app] in Hm.
    destruct (match_sep (c :: s)) as [r|] eqn:E; cbn [option_map] in Hm.
    + now rewrite (find_sep_here _ _ Hm), (find_sep_here _ _ E).
    + rewrite (find_sep_later _ _ Hm), (find_sep_later _ _ E), IH.
      destruct (find_sep s) as [[p r]|]; reflexivity.
Qed.

(** Whitespace after the text changes at most the last part, and there
    only its whitespace. *)
Lemma re_split_trail s b :
  all_space b ->
  map re_sub_non_numeric (re_split (s ++ b)) = map re_sub_non_numeric (re_split s).
Proof.
  intros Hb. remember (length s) as n eqn:Hn.
  revert s Hn. induction n as [n IH] using lt_wf_ind. intros s Hn.
  rewrite (re_split_unfold (s ++ b)), (re_split_unfold s), (find_sep_trail s b Hb).
  destruct (find_sep s) as [[p r]|] eqn:E.
  - cbn [map]. f_equal. destruct r as [|c r]; [reflexivity|].
    cbn [trail]. apply find_sep_length in E.
    apply (IH (length (c :: r))); [lia|reflexivity].
  - cbn [map]. now rewrite sub_app, (sub_all_space b Hb), app_nil_r.
Qed.

Lemma re_split_strip s :
  map re_sub_non_numeric (re_split s) = map re_sub_non_numeric (re_split (strip s)).
Proof.
  destruct (strip_split s) as [a [b [Ha [Hb Hs]]]].
  rewrite Hs at 1. rewrite (re_split_lead a _ Ha). now apply re_split_trail.
Qed.

Lemma sub_empty_no_numeric part : re_sub_non_numeric part = [] -> no_numeric part.
Proof.
  unfold re_sub_non_numeric, no_numeric. induction part as [|c part IH]; [constructor|].
  cbn [List.filter]. destruct (is_numeric_char c) eqn:E; [discriminate|].
  intros H. constructor; auto.
Qed.

Lemma unparseable_sub part :
  unparseable part <-> unparseable_number (re_sub_non_numeric part).
Proof.
  unfold unparseable, unparseable_number, parse_fails. split; intros [H|H]; auto.
  - left. now apply no_numeric_sub.
  - left. now apply sub_empty_no_numeric.
Qed.

Lemma Exists_unparseable_sub parts :
  Exists unparseable parts
  <-> Exists unparseable_number (map re_sub_non_numeric parts).
Proof.
  rewrite List.Exists_map. split; intros H; eapply List.Exists_impl; try exact H;
    intros part; apply unparseable_sub.
Qed.

Lemma unparseable_strip s :
  Exists unparseable (re_split s) <-> Exists unparseable (re_split (strip s)).
Proof. now rewrite !Exists_unparseable_sub, re_split_strip. Qed.

Lemma contains_app_l needle a x :
  contains needle x = true -> contains needle (a ++ x) = true.
Proof.
  rewrite !contains_spec. intros [pre [post ->]]. exists (a ++ pre), post.
  now rewrite <- app_assoc.
Qed.

Lemma contains_app_r needle x b :
  contains needle x = true -> contains needle (x ++ b) = true.
Proof.
  rewrite !contains_spec. intros [pre [post ->]]. exists pre, (post ++ b).
  now rewrite <- !app_assoc.
Qed.

Lemma contains_request_strip_eq s :
  contains request (lower (strip s)) = contains request (lower s).
Proof.
  apply eq_true_iff_eq. split; [|apply contains_request_strip].
  destruct (strip_split s) as [a [b [Ha [Hb Hs]]]]. intros H.
  rewrite Hs, !lower_app. apply contains_app_l. now apply contains_app_r.
Qed.

(** ** Numbers that do not parse *)

Lemma sub_numeric part : numeric (re_sub_non_numeric part).
Proof.
  unfold numeric, re_sub_non_numeric. apply List.Forall_forall. intros c Hc.
  now apply filter_In in Hc.
Qed.

Lemma numeric_char_cases c :
  is_numeric_char c = true ->
  (is_digit c = true /\ (dot =? c) = false) \/ (is_digit c = false /\ c = dot).
Proof.
  unfold is_numeric_char. rewrite orb_true_iff, N.eqb_eq. intros [H| ->].
  - left. split; [exact H|now apply digit_not_dot].
  - right. split; reflexivity.
Qed.

Lemma count_dots_cons c s :
  count_dots (c :: s) = ((if (dot =? c)%N then 1 else 0) + count_dots s)%nat.
Proof. unfold count_dots. cbn [List.filter]. destruct (dot =? c); reflexivity. Qed.

Lemma count_dots_app a b : count_dots (a ++ b) = (count_dots a + count_dots b)%nat.
Proof. unfold count_dots. now rewrite List.filter_app, length_app. Qed.

Lemma digits_iff_no_dot s :
  numeric s -> (forallb is_digit s = true <-> count_dots s = 0%nat).
Proof.
  induction 1 as [|c s Hc _ IH]; [now split|].
  cbn [forallb]. rewrite count_dots_cons, andb_true_iff.
  destruct (numeric_char_cases c Hc) as [[-> ->]| [-> ->]].
  - rewrite IH. simpl. tauto.
  - rewrite N.eqb_refl. split; [intros [? _]; discriminate|lia].
Qed.

Lemma existsb_dot_count s : existsb (N.eqb dot) s = negb (Nat.eqb (count_dots s) 0).
Proof.
  induction s as [|c s IH]; [reflexivity|].
  cbn [existsb]. rewrite count_dots_cons, IH. destruct (dot =? c); reflexivity.
Qed.

Lemma span_digits_spec s :
  s = (span_digits s).1 ++ (span_digits s).2
  /\ forallb is_digit (span_digits s).1 = true
  /\ match (span_digits s).2 with
     | [] => True
     | c :: _ => is_digit c = false
     end.
Proof.
  induction s as [|c s [IH1 [IH2 IH3]]]; [now repeat split|].
  cbn [span_digits]. destruct (is_digit c) eqn:E.
  - destruct (span_digits s) as [ds r]. cbn [fst snd] in *.
    split; [now rewrite IH1 at 1|]. split; [|exact IH3].
    cbn [forallb]. now rewrite E, IH2.
  - cbn [fst snd]. now repeat split.
Qed.

(** What is left of a part does not parse exactly when it is empty, a
    lone point, holds two points or more, or is a run of digits longer
    than [int()] converts. *)
Lemma format_number_raises num :
  numeric num ->
  ((exists e, format_number num = Raise e)
   <-> num = [] \/ num = [dot] \/ (2 <= count_dots num)%nat
       \/ (count_dots num = 0%nat /\ (int_max_str_digits < length num)%nat)).
Proof.
  intros Hnum. unfold format_number. rewrite existsb_dot_count.
  pose proof (digits_iff_no_dot num Hnum) as Hdig.
  destruct (Nat.eqb_spec (count_dots num) 0) as [H0|H0]; cbn [negb].
  - unfold py_int. destruct num as [|c num].
    + split; [now left|eauto].
    + rewrite (proj2 Hdig H0).
      destruct (Nat.ltb_spec int_max_str_digits (length (c :: num))) as [Hlong|Hshort];
        cbn [mbind outcome_bind]; split.
      * intros _. right. right. right. now split.
      * eauto.
      * intros [e He]. discriminate.
      * intros [H|[H|[H|[_ H]]]]; [discriminate| |lia|lia].
        injection H as -> ->. rewrite count_dots_cons, N.eqb_refl in H0. discriminate.
  - unfold py_float. destruct (span_digits_spec num) as [Hs [Hip Hr]].
    destruct (span_digits num) as [ip r]. cbn [fst snd] in *.
    assert (numeric ip /\ numeric r) as [Hnip Hnr].
    { unfold numeric in *. rewrite Hs in Hnum. now apply Forall_app in Hnum. }
    assert (count_dots ip = 0%nat) as Hip0 by now apply digits_iff_no_dot.
    destruct r as [|c fp].
    { exfalso. apply H0. rewrite Hs, app_nil_r. exact Hip0. }
    inversion Hnr as [|? ? Hc Hnfp]; subst.
    destruct (numeric_char_cases c Hc) as [[Hd _]|[_ ->]]; [congruence|].
    rewrite N.eqb_refl. cbn [andb].
    rewrite count_dots_app, count_dots_cons, N.eqb_refl, Hip0.
    pose proof (digits_iff_no_dot fp Hnfp) as Hfp.
    destruct (forallb is_digit fp) eqn:Efp.
    + assert (count_dots fp = 0%nat) as -> by now apply Hfp.
      destruct (ip ++ fp) as [|x xs] eqn:Eapp; cbn [length Nat.eqb negb andb mbind outcome_bind].
      * apply app_eq_nil in Eapp as [-> ->]. split; [intros _; right; now left|eauto].
      * split; [intros [e He]; discriminate|].
        intros [H|[H|[H|[H _]]]];
          [destruct ip; discriminate| |simpl in H; lia|simpl in H; lia].
        destruct ip as [|y ip]; [|destruct ip; discriminate].
        cbn [app] in H. injection H as ->. discriminate.
    + cbn [andb mbind outcome_bind]. split; [|eauto]. intros _. right. right. left.
      destruct (count_dots fp) as [|k] eqn:Ek; [|simpl; lia].
      exfalso. pose proof (proj2 Hfp eq_refl). discriminate.
Qed.

Example malformed_decimals :
  List.map (fun t => format_number (u8 t)) ["1.2.3"; "."; "1..2"; ""]%string
  = [Raise ValueError; Raise ValueError; Raise ValueError; Raise ValueError].
Proof. reflexivity. Qed.

(** ** Integers and their text *)

Lemma digits_value_of_lu s acc :
  all_digits s ->
  fold_left (fun a c => a * 10 + digit_value c) s (DecimalPos.Unsigned.of_lu acc)
  = DecimalPos.Unsigned.of_lu (Decimal.revapp (uint_of_chars s) acc).
Proof.
  intros H. revert acc. induction H as [|c s Hc _ IH]; intros acc; [reflexivity|].
  cbn [fold_left uint_of_chars].
  each_digit c Hc; eval_char_digit; cbn [Decimal.revapp];
    rewrite <- IH; f_equal; cbn [DecimalPos.Unsigned.of_lu];
    unfold digit_value; lia.
Qed.

Lemma digits_value_of_uint s :
  all_digits s -> digits_value s = N.of_uint (uint_of_chars s).
Proof.
  intros H. unfold digits_value, N.of_uint.
  rewrite DecimalPos.Unsigned.of_uint_alt. unfold Decimal.rev.
  exact (digits_value_of_lu s Nil H).
Qed.

Lemma uint_chars_of_chars s : all_digits s -> uint_chars (uint_of_chars s) = s.
Proof.
  induction 1 as [|c s Hc _ IH]; [reflexivity|].
  cbn [uint_of_chars]. each_digit c Hc; eval_char_digit; cbn [uint_chars]; now rewrite IH.
Qed.

Lemma uint_chars_nzhead u : uint_chars (Decimal.nzhead u) = lstrip_zeros (uint_chars u).
Proof. induction u; cbn; auto. Qed.

Lemma uint_chars_unorm u : uint_chars (Decimal.unorm u) = canonical_digits (uint_chars u).
Proof.
  unfold Decimal.unorm, canonical_digits. rewrite <- uint_chars_nzhead.
  destruct (Decimal.nzhead u); reflexivity.
Qed.

(** [str(int(ds))] is [ds] without its leading zeros. *)
Lemma str_of_digits_value s :
  all_digits s -> str_of_N (digits_value s) = canonical_digits s.
Proof.
  intros H. unfold str_of_N.
  rewrite (digits_value_of_uint s H), DecimalN.Unsigned.to_of, uint_chars_unorm.
  now rewrite (uint_chars_of_chars s H).
Qed.

Lemma uint_chars_digits u : all_digits (uint_chars u).
Proof. induction u; cbn; constructor; auto. Qed.

Lemma str_of_N_nonempty n : str_of_N n <> [].
Proof.
  unfold str_of_N. destruct n as [|p]; [discriminate|].
  cbn [N.to_uint]. pose proof (DecimalPos.Unsigned.to_uint_nonnil p) as H.
  destruct (Pos.to_uint p); [congruence|discriminate..].
Qed.

(** ** Thousands separators *)

Lemma join_cons sep p rest :
  rest <> [] -> join sep (p :: rest) = p ++ sep ++ join sep rest.
Proof. destruct rest; [congruence|reflexivity]. Qed.

Lemma join_snoc sep gs g :
  gs <> [] -> join sep (gs ++ [g]) = join sep gs ++ sep ++ g.
Proof.
  induction gs as [|p gs IH]; [congruence|]. intros _.
  destruct gs as [|q gs]; [reflexivity|].
  cbn [app]. rewrite join_cons by discriminate.
  rewrite (join_cons sep p (q :: gs)) by discriminate.
  cbn [app] in IH. rewrite IH by discriminate. now rewrite <- !app_assoc.
Qed.

Lemma rev_join_comma gs :
  rev (join [comma] gs) = join [comma] (rev (map (@rev N) gs)).
Proof.
  induction gs as [|g gs IH]; [reflexivity|].
  destruct gs as [|h gs]; [reflexivity|].
  rewrite join_cons by discriminate. rewrite !rev_app_distr, IH.
  change (rev [comma]) with [comma].
  change (rev (map (@rev N) (g :: h :: gs)))
    with (rev (map (@rev N) (h :: gs)) ++ [rev g]).
  rewrite join_snoc; [now rewrite <- !app_assoc|].
  cbn [map rev]. destruct (rev (map (@rev N) gs)); discriminate.
Qed.

Lemma concat_rev_map (gs : list pystr) :
  concat (rev (map (@rev N) gs)) = rev (concat gs).
Proof.
  induction gs as [|g gs IH]; [reflexivity|].
  cbn [map rev concat]. rewrite concat_app, IH, rev_app_distr. cbn [concat].
  now rewrite app_nil_r.
Qed.

(** The digits least significant first: chunks of three, then a last
    chunk of one to three. *)
Lemma group3_rev_chunks l :
  l <> [] ->
  exists gs g,
    group3_rev l = join [comma] (gs ++ [g])
    /\ concat (gs ++ [g]) = l
    /\ Forall (fun x => length x = 3%nat) gs
    /\ (1 <= length g <= 3)%nat.
Proof.
  remember (length l) as n eqn:Hn. revert l Hn.
  induction n as [n IH] using lt_wf_ind. intros l Hn Hne.
  destruct l as [|a [|b [|c [|d r]]]]; [congruence|..].
  - exists [], [a]. cbn. repeat split; try constructor; lia.
  - exists [], [a; b]. cbn. repeat split; try constructor; lia.
  - exists [], [a; b; c]. cbn. repeat split; try constructor; lia.
  - destruct (IH (length (d :: r)) ltac:(subst; simpl; lia) (d :: r) eq_refl
                 ltac:(discriminate)) as [gs [g [Hj [Hc [Hgs Hg]]]]].
    exists ([a; b; c] :: gs), g. split; [|split; [|split]].
    + cbn [group3_rev app]. rewrite join_cons by (destruct gs; discriminate).
      now rewrite <- Hj.
    + cbn [app concat]. now rewrite Hc.
    + constructor; [reflexivity|exact Hgs].
    + exact Hg.
Qed.

(** The formatted integer is its digits cut in groups of three from the
    right, with a comma between the groups. *)
Lemma format_int_commas_groups n :
  exists groups,
    format_int_commas n = join [comma] groups
    /\ thousands_groups groups (str_of_N n).
Proof.
  unfold format_int_commas.
  destruct (group3_rev_chunks (rev (str_of_N n))) as [gs [g [Hj [Hc [Hgs Hg]]]]].
  { intros E. apply (str_of_N_nonempty n). apply (f_equal (@rev N)) in E.
    now rewrite rev_involutive in E. }
  exists (rev (map (@rev N) (gs ++ [g]))). split.
  - now rewrite Hj, rev_join_comma.
  - split.
    + now rewrite concat_rev_map, Hc, rev_involutive.
    + rewrite map_app, rev_app_distr. cbn [map rev app].
      split; [now rewrite length_rev|].
      apply List.Forall_rev. apply List.Forall_map.
      eapply List.Forall_impl; [|exact Hgs]. intros x Hx. now rewrite length_rev.
Qed.

Example thousands_examples :
  List.map format_int_commas [0; 7; 999; 1000; 12345; 1070000; 1234567890]
  = List.map u8 ["0"; "7"; "999"; "1,000"; "12,345"; "1,070,000"; "1,234,567,890"]%string.
Proof. reflexivity. Qed.

(** ** Failure paths of the formatter *)

(** With [str(raw)] rendered, nothing of the formatter raises. *)
Lemma format_price_range_returns (raw : pyval) :
  exists out, format_price_range raw = Return out.
Proof.
  destruct raw; [now exists []|..]; unfold format_price_range;
    (destruct (strip _) as [|c s'];
     [now exists []|
      destruct (contains request _);
      [now exists price_on_request|apply format_parts_total]]).
Qed.

(** A part does not parse exactly when its numeric characters are a lone
    point, hold two points or more, or are a run of digits longer than
    [int()] converts (or when it has none at all). *)
Lemma parse_fails_cases part :
  parse_fails part
  <-> re_sub_non_numeric part = [] \/ re_sub_non_numeric part = [dot]
      \/ (2 <= count_dots (re_sub_non_numeric part))%nat
      \/ (count_dots (re_sub_non_numeric part) = 0%nat
          /\ (int_max_str_digits < length (re_sub_non_numeric part))%nat).
Proof. apply format_number_raises, sub_numeric. Qed.

(** C1, as the spec has it, fails: the text handed back on a failure is the
    stripped text, not the text as given; and the test for "request" comes
    first. *)
Lemma format_price_range_passthrough_not_verbatim :
  (Exists no_numeric (re_split (u8 " TBD "))
   /\ format_price_range (PyStr (u8 " TBD ")) = Return (u8 "TBD")
   /\ format_price_range (PyStr (u8 " TBD ")) <> Return (u8 " TBD "))
  /\ (Exists no_numeric (re_split (u8 "REQUEST"))
      /\ format_price_range (PyStr (u8 "REQUEST")) = Return (u8 "Price on Request")
      /\ format_price_range (PyStr (u8 "REQUEST")) <> Return (u8 "REQUEST")).
Proof.
  split; (split; [left; repeat constructor|]); (split; [reflexivity|discriminate]).
Qed.

(** C1 (amended): when the text does not hold "request" in any casing, and
    one of its dash-separated parts holds no digit or point or does not
    parse as a number, the formatter returns the text stripped of the
    whitespace around it, whole and otherwise unchanged. *)
Theorem format_price_range_passthrough (raw : pystr) :
  contains request (lower raw) = false ->
  Exists unparseable (re_split raw) ->
  format_price_range (PyStr raw) = Return (strip raw).
Proof.
  intros Hreq Hbad. rewrite <- contains_request_strip_eq in Hreq.
  apply unparseable_strip in Hbad.
  rewrite (format_price_range_str raw Hreq).
  destruct (strip raw) eqn:E; [reflexivity|]. now apply format_parts_fail.
Qed.

Lemma format_price_range_passthrough_witness :
  format_price_range (PyStr (u8 "  P1070000 - TBD ")) = Return (u8 "P1070000 - TBD").
Proof.
  apply (format_price_range_passthrough (u8 "  P1070000 - TBD ")).
  - reflexivity.
  - right. left. left. repeat constructor.
Defined.

(** C7: text whose lowercased form holds "request" is answered with the
    fixed phrase, whatever its casing and whatever numbers it holds. *)
Theorem format_price_range_request (raw : pystr) :
  contains request (lower raw) = true ->
  format_price_range (PyStr raw) = Return price_on_request.
Proof.
  intros H. apply contains_request_strip in H.
  unfold format_price_range, py_str. rewrite H.
  destruct (strip raw); [discriminate|reflexivity].
Qed.

Lemma format_price_range_request_witness :
  format_price_range (PyStr (u8 " price ON ReQuest: 1070000 - 1140000"))
  = Return (u8 "Price on Request").
Proof.
  apply (format_price_range_request (u8 " price ON ReQuest: 1070000 - 1140000")).
  reflexivity.
Defined.

(** C10: text that is not empty but is whitespace throughout gives the
    empty text. *)
Theorem format_price_range_whitespace (raw : pystr) :
  raw <> [] -> all_space raw -> format_price_range (PyStr raw) = Return [].
Proof.
  intros _ H. unfold format_price_range, py_str. now rewrite (strip_all_space raw H).
Qed.

Lemma format_price_range_whitespace_witness :
  format_price_range (PyStr [0x20; 0x09; 0xA0; 0x0A]) = Return [].
Proof.
  apply (format_price_range_whitespace [0x20; 0x09; 0xA0; 0x0A]).
  - discriminate.
  - repeat constructor.
Defined.

(** C9, as the spec has it, fails on the same point as C1: a malformed
    decimal between spaces comes back without the spaces. *)
Lemma format_price_range_failure_not_verbatim :
  Exists parse_fails (re_split (u8 " 1.2.3 "))
  /\ format_price_range (PyStr (u8 " 1.2.3 ")) = Return (u8 "1.2.3")
  /\ format_price_range (PyStr (u8 " 1.2.3 ")) <> Return (u8 " 1.2.3 ").
Proof.
  split; [left; exists ValueError; reflexivity|].
  split; [reflexivity|discriminate].
Qed.

(** C9 (amended): on every value that [str()] renders (None, a text,
    and any other value but an int of more than 4300 digits, on which
    [str(raw)], outside the [try], raises [ValueError]) the formatter raises
    nothing and returns a text; and on every failure path (a part without
    digit or point, a part that does not parse) that text is [str(raw)]
    stripped of the whitespace around it, whole. *)
Theorem format_price_range_total (raw : pyval) :
  str_returns raw = true ->
  exists out,
    format_price_range raw = Return out
    /\ (raw <> PyNone ->
        contains request (lower (py_str raw)) = false ->
        Exists unparseable (re_split (py_str raw)) ->
        out = strip (py_str raw)).
Proof.
  intros _.
  assert (forall v, v <> PyNone ->
            format_price_range v
            = match strip (py_str v) with
              | [] => Return []
              | _ :: _ =>
                if contains request (lower (strip (py_str v)))
                then Return price_on_request
                else format_parts (strip (py_str v)) (re_split (strip (py_str v))) []
              end) as Hunfold.
  { intros v Hv. destruct v; [congruence|reflexivity..]. }
  destruct (format_price_range_returns raw) as [out Hout].
  exists out. split; [exact Hout|].
  intros Hnone Hreq Hbad. rewrite (Hunfold raw Hnone) in Hout.
  rewrite <- contains_request_strip_eq in Hreq. apply unparseable_strip in Hbad.
  rewrite Hreq in Hout.
  destruct (strip (py_str raw)) as [|c s'] eqn:Es; [congruence|].
  rewrite (format_parts_fail _ _ [] Hbad) in Hout. congruence.
Qed.

Lemma format_price_range_total_witness :
  exists out,
    format_price_range (PyStr (u8 " 1.2.3 - 5 ")) = Return out
    /\ out = u8 "1.2.3 - 5".
Proof.
  destruct (format_price_range_total (PyStr (u8 " 1.2.3 - 5 ")) eq_refl)
    as [out [Hout Hfail]].
  exists out. split; [exact Hout|]. apply Hfail.
  - discriminate.
  - reflexivity.
  - left. right. exists ValueError. reflexivity.
Defined.

(** ** Numeric price ranges *)

Lemma forallb_Forall {A : Type} (f : A -> bool) (l : list A) :
  forallb f l = true -> Forall (fun x => f x = true) l.
Proof.
  induction l as [|x l IH]; simpl; [constructor|].
  intros H. apply andb_true_iff in H as [Hx Hl]. constructor; auto.
Qed.

Lemma filter_all {A : Type} (f : A -> bool) (l : list A) :
  Forall (fun x => f x = true) l -> List.filter f l = l.
Proof. induction 1 as [|x l Hx _ IH]; simpl; [reflexivity|]. now rewrite Hx, IH. Qed.

Lemma filter_none {A : Type} (f : A -> bool) (l : list A) :
  Forall (fun x => f x = false) l -> List.filter f l = [].
Proof. induction 1 as [|x l Hx _ IH]; simpl; [reflexivity|]. now rewrite Hx. Qed.

Lemma prefix_char_classes c :
  is_prefix_char c = true ->
  is_space c = false /\ is_dash c = false /\ is_numeric_char c = false.
Proof.
  unfold is_prefix_char. rewrite negb_true_iff, !orb_false_iff. tauto.
Qed.

Lemma segment_ok_facts sg : segment_ok sg = true -> segment_facts sg.
Proof.
  unfold segment_ok. rewrite !andb_true_iff, negb_true_iff, Nat.eqb_neq, Nat.leb_le.
  intros [[[Hp Hn] Hd] Hshort]. apply forallb_Forall in Hp, Hd.
  assert (Forall (fun c => is_space c = false /\ is_dash c = false
                           /\ is_numeric_char c = false) (prefix sg)) as Hp'.
  { eapply List.Forall_impl; [|exact Hp]. exact prefix_char_classes. }
  split.
  - exact Hd.
  - intros E. now rewrite E in Hn.
  - apply Forall_app. split.
    + eapply List.Forall_impl; [|exact Hp']. simpl. intros ? (? & ? & ?). assumption.
    + eapply List.Forall_impl; [|exact Hd]. exact digit_not_space.
  - apply Forall_app. split.
    + eapply List.Forall_impl; [|exact Hp']. simpl. intros ? (? & ? & ?). assumption.
    + eapply List.Forall_impl; [|exact Hd]. exact digit_not_dash.
  - unfold re_sub_non_numeric, segment_text. rewrite List.filter_app.
    rewrite filter_none, filter_all; [reflexivity| |].
    + eapply List.Forall_impl; [|exact Hd]. exact digit_numeric.
    + eapply List.Forall_impl; [|exact Hp']. simpl. intros ? (? & ? & ?). assumption.
  - exact Hshort.
Qed.

Lemma separator_ok_facts sp :
  separator_ok sp = true ->
  all_space (before sp) /\ is_dash (dash sp) = true /\ all_space (after sp).
Proof.
  unfold separator_ok. rewrite !andb_true_iff. intros [[H1 H2] H3].
  split; [now apply forallb_Forall|]. split; [exact H2|now apply forallb_Forall].
Qed.

(** The integer branch of the [try] block on a run of digits. *)
Lemma format_number_digits ds :
  ds <> [] -> Forall (fun c => is_digit c = true) ds ->
  (length ds <= int_max_str_digits)%nat ->
  format_number ds = Return (peso :: format_int_commas (digits_value ds)).
Proof.
  intros Hne Hd Hshort. unfold format_number.
  assert (existsb (N.eqb dot) ds = false) as ->.
  { clear Hne Hshort. induction Hd as [|c ds Hc _ IH]; cbn [existsb]; [reflexivity|].
    now rewrite (digit_not_dot c Hc). }
  unfold py_int. destruct ds as [|c ds]; [congruence|].
  assert (forallb is_digit (c :: ds) = true) as ->.
  { apply forallb_forall. intros x Hx.
    rewrite List.Forall_forall in Hd. now apply Hd. }
  now rewrite (proj2 (Nat.ltb_ge int_max_str_digits (length (c :: ds))) Hshort).
Qed.

Lemma range_text_lstrip first rest :
  segment_ok first = true -> lstrip (range_text first rest) = range_text first rest.
Proof.
  intros H. apply segment_ok_facts in H as [_ Hne Hs _ _ _].
  assert (exists c t, segment_text first = c :: t) as [c [t E]].
  { unfold segment_text. destruct (prefix first); simpl; eauto.
    destruct (digits first); [congruence|eauto]. }
  destruct rest as [|[sp sg] rest]; cbn [range_text]; rewrite E in *;
    inversion Hs; subst; now apply lstrip_head.
Qed.

Lemma range_text_last first rest :
  segment_ok first = true -> pieces_ok rest = true ->
  exists t c, range_text first rest = t ++ [c] /\ is_space c = false.
Proof.
  revert first. induction rest as [|[sp sg] rest IH]; intros first Hf Hr.
  - apply segment_ok_facts in Hf as [Hd Hne _ _ _ _]. cbn [range_text].
    rewrite app_nil_r. unfold segment_text.
    destruct (exists_last Hne) as [t [c E]]. rewrite E in *.
    exists (prefix first ++ t), c. split; [now rewrite app_assoc|].
    apply Forall_app in Hd as [_ Hd]. inversion Hd; subst. now apply digit_not_space.
  - cbn [pieces_ok forallb] in Hr. apply andb_true_iff in Hr as [Hh Hr].
    apply andb_true_iff in Hh as [_ Hsg].
    destruct (IH sg Hsg Hr) as [t [c [E Hc]]]. cbn [range_text]. rewrite E.
    exists (segment_text first ++ separator_text sp ++ t), c.
    split; [now rewrite <- !app_assoc|exact Hc].
Qed.

Lemma range_text_strip first rest :
  segment_ok first = true -> pieces_ok rest = true ->
  strip (range_text first rest) = range_text first rest.
Proof.
  intros Hf Hr. unfold strip. rewrite (range_text_lstrip first rest Hf).
  destruct (range_text_last first rest Hf Hr) as [t [c [E Hc]]].
  rewrite E. now apply rstrip_last.
Qed.

(** The parts that [re.split] finds are the segments. *)
Lemma range_text_split first rest :
  segment_ok first = true -> pieces_ok rest = true ->
  re_split (range_text first rest) = map segment_text (first :: map snd rest).
Proof.
  revert first. induction rest as [|[sp sg] rest IH]; intros first Hf Hr.
  - apply segment_ok_facts in Hf as [_ _ _ Hd _ _]. cbn [range_text].
    rewrite app_nil_r. now apply re_split_no_dash.
  - cbn [pieces_ok forallb] in Hr. apply andb_true_iff in Hr as [Hh Hr].
    apply andb_true_iff in Hh as [Hsp Hsg].
    apply separator_ok_facts in Hsp as [H1 [Hdash H2]].
    pose proof (range_text_lstrip sg rest Hsg) as Hl.
    apply segment_ok_facts in Hf as [_ _ Hs Hd _ _].
    cbn [range_text]. unfold separator_text. rewrite <- !app_assoc. cbn [app].
    rewrite re_split_unfold, (find_sep_part _ _ _ _ _ Hs Hd H1 Hdash H2 Hl).
    cbn [map snd]. f_equal. exact (IH sg Hsg Hr).
Qed.

Lemma segments_formatted_each segs :
  Forall (fun sg => segment_ok sg = true) segs ->
  Forall2 (fun part f => re_sub_non_numeric part <> []
                         /\ format_number (re_sub_non_numeric part) = Return f)
          (map segment_text segs) (map segment_formatted segs).
Proof.
  induction 1 as [|sg segs Hsg _ IH]; simpl; constructor; [|exact IH].
  apply segment_ok_facts in Hsg as [Hd Hne _ _ Hsub Hshort]. rewrite Hsub.
  split; [exact Hne|]. now apply format_number_digits.
Qed.

Lemma pieces_ok_segments rest :
  pieces_ok rest = true -> Forall (fun sg => segment_ok sg = true) (map snd rest).
Proof.
  induction rest as [|[sp sg] rest IH]; simpl; [constructor|].
  intros H. apply andb_true_iff in H as [Hh Hr].
  apply andb_true_iff in Hh as [_ Hsg]. constructor; auto.
Qed.

(** A formatted segment: the glyph, then the digits of the segment, less
    their leading zeros, in groups of three with commas between. *)
Lemma segment_formatted_groups sg :
  segment_ok sg = true ->
  exists groups,
    segment_formatted sg = peso :: join [comma] groups
    /\ thousands_groups groups (canonical_digits (digits sg)).
Proof.
  intros H. apply segment_ok_facts in H as [Hd _ _ _ _ _]. unfold segment_formatted.
  destruct (format_int_commas_groups (digits_value (digits sg))) as [groups [Hj Hg]].
  exists groups. rewrite Hj. split; [reflexivity|].
  now rewrite <- (str_of_digits_value (digits sg)).
Qed.

(** C6, as the spec has it, fails on a segment of more digits than [int()]
    converts: the [ValueError] is caught and the text comes back as it
    is, without glyph or commas. *)
Lemma format_price_range_long_segment :
  forallb is_digit (digits long_segment) = true
  /\ length (digits long_segment) = S int_max_str_digits
  /\ format_price_range (PyStr (range_text long_segment [])) = Return long_digits
  /\ format_price_range (PyStr (range_text long_segment []))
     <> Return (segment_formatted long_segment).
Proof.
  assert (format_price_range (PyStr (range_text long_segment [])) = Return long_digits)
    as E by (vm_compute; reflexivity).
  split; [vm_compute; reflexivity|]. split; [apply repeat_length|].
  split; [exact E|]. rewrite E. unfold segment_formatted.
  change long_digits with (0x31 :: repeat 0x31 int_max_str_digits).
  discriminate.
Qed.

(** C6 (amended): a numeric price range, that is segments of digits, at
    most 4300 in a segment, with optional prefixes, separated by dashes
    with optional whitespace (and not a
    "request" text), is formatted segment by segment and the formatted
    segments are joined in their order by space, en dash, space; a
    formatted segment is one glyph followed by the integer with a comma
    between its groups of three digits; so are formatted the two ranges of
    the docstring. *)
Theorem format_price_range_numeric :
  (forall first rest,
     segment_ok first = true ->
     pieces_ok rest = true ->
     contains request (lower (range_text first rest)) = false ->
     format_price_range (PyStr (range_text first rest))
     = Return (join range_sep (map segment_formatted (first :: map snd rest))))
  /\ (forall sg,
        segment_ok sg = true ->
        exists groups,
          segment_formatted sg = peso :: join [comma] groups
          /\ thousands_groups groups (canonical_digits (digits sg)))
  /\ format_price_range (PyStr (u8 "P1070000 - P1140000"))
     = Return (u8 "₱1,070,000 – ₱1,140,000")
  /\ format_price_range (PyStr (u8 "1070000-1140000"))
     = Return (u8 "₱1,070,000 – ₱1,140,000").
Proof.
  split; [|split; [exact segment_formatted_groups|split; reflexivity]].
  intros first rest Hf Hr Hreq.
  pose proof (range_text_strip first rest Hf Hr) as Hstrip.
  rewrite format_price_range_str; rewrite Hstrip; [|exact Hreq].
  destruct (range_text first rest) as [|c t] eqn:E.
  { destruct (range_text_last first rest Hf Hr) as [t [c [E' _]]].
    rewrite E in E'. destruct t; discriminate. }
  rewrite <- E, (range_text_split first rest Hf Hr).
  apply (format_parts_ok _ _ _ []).
  apply segments_formatted_each. constructor; [exact Hf|].
  now apply pieces_ok_segments.
Qed.

Lemma format_price_range_numeric_witness :
  format_price_range (PyStr (u8 "PHP950000 –₱1070000  -  1140000"))
  = Return (u8 "₱950,000 – ₱1,070,000 – ₱1,140,000").
Proof.
  exact (proj1 format_price_range_numeric
           {| prefix := u8 "PHP"; digits := u8 "950000" |}
           [ ({| before := u8 " "; dash := 0x2013; after := [] |},
              {| prefix := u8 "₱"; digits := u8 "1070000" |});
             ({| before := u8 "  "; dash := 0x2D; after := u8 "  " |},
              {| prefix := []; digits := u8 "1140000" |}) ]
           eq_refl eq_refl eq_refl).
Defined.

(** ** Rows of a file *)


Lemma csv_model_missing_cases (row : csv_row) :
  csv_model_missing row = true <->
  row !! key_Model = None \/ row !! key_Model = Some None
  \/ row !! key_Model = Some (Some []).
Proof.
  unfold csv_model_missing, row_get, field_falsy.
  destruct (row !! key_Model) as [[[|c m]|]|]; split; intros H;
    try discriminate; try reflexivity; try tauto;
    destruct H as [H|[H|H]]; discriminate.
Qed.

Lemma csv_row_action_stop (row : csv_row) :
  csv_model_missing row = true -> csv_row_action row = Return Stop.
Proof. unfold csv_model_missing, csv_row_action. now intros ->. Qed.

(** A row with a model and with its "Variant" field in place is emitted,
    its model being the field stripped. *)
Lemma csv_row_action_emit (row : csv_row) :
  csv_model_missing row = false -> csv_variant_ok row = true ->
  exists m rec,
    row !! key_Model = Some (Some m)
    /\ csv_row_action row = Return (Emit rec)
    /\ model rec = strip m.
Proof.
  unfold csv_model_missing, csv_variant_ok, csv_row_action.
  intros Hm Hv. rewrite Hm. unfold row_get in *.
  destruct (row !! key_Model) as [[m|]|]; try discriminate.
  exists m.
  destruct (format_price_range_returns
              (field_value match row !! key_Price with
                           | Some v => v
                           | None => Some []
                           end)) as [p Hp].
  destruct (row !! key_Variant) as [[v|]|]; try discriminate;
    cbn [field_strip mbind outcome_bind]; rewrite Hp; eexists; (split; [reflexivity|]);
    split; reflexivity.
Qed.

Lemma csv_rows_count (rows : list csv_row) (acc : list model_record) :
  Forall (fun row => csv_variant_ok row = true) rows ->
  exists models,
    csv_rows rows acc = Return models
    /\ length models = (length acc + first_index csv_model_missing rows)%nat.
Proof.
  intros H. revert acc. induction H as [|row rows Hv _ IH]; intros acc.
  - exists acc. split; [reflexivity|]. simpl. lia.
  - cbn [csv_rows first_index]. destruct (csv_model_missing row) eqn:E.
    + rewrite (csv_row_action_stop row E). exists acc. split; [reflexivity|lia].
    + destruct (csv_row_action_emit row E Hv) as [m [rec [_ [Hrec _]]]].
      rewrite Hrec. cbn [mbind outcome_bind].
      destruct (IH (acc ++ [rec])) as [models [Hm Hl]].
      exists models. split; [exact Hm|]. rewrite Hl, length_app. simpl. lia.
Qed.

(** ** Rows of a sheet *)

Lemma truthy_or_empty c : truthy (or_empty c) = truthy c.
Proof. unfold or_empty. destruct (truthy c) eqn:E; [exact E|reflexivity]. Qed.

(** One turn of the loop on a row of three cells or more. *)
Lemma excel_row_action_wide c0 c1 c2 tail :
  exists p,
    format_price_range (or_empty c2) = Return p
    /\ excel_row_action (c0 :: c1 :: c2 :: tail)
       = Return (if first_cell_none [c0] then Stop
                 else if truthy c0
                      then Emit {| model := strip (py_str c0);
                                   variant := strip (py_str (or_empty c1));
                                   priceRange := p |}
                      else Skip).
Proof.
  destruct (format_price_range_returns (or_empty c2)) as [p Hp].
  exists p. split; [exact Hp|].
  unfold excel_row_action, getitem. cbn [lookup list_lookup mbind outcome_bind].
  destruct c0; cbn [first_cell_none]; try reflexivity;
    rewrite truthy_or_empty;
    (destruct (truthy _) eqn:E; [|reflexivity]);
    unfold or_empty at 1; rewrite E, Hp; reflexivity.
Qed.

Lemma wide_cells row : wide row -> exists c0 c1 c2 tail, row = c0 :: c1 :: c2 :: tail.
Proof.
  unfold wide. destruct row as [|c0 [|c1 [|c2 tail]]]; simpl; try lia. eauto.
Qed.

Lemma excel_rows_count (rows : list (list pyval)) (acc : list model_record) :
  Forall wide rows ->
  exists models,
    excel_rows rows acc = Return models
    /\ length models
       = (length acc
          + length (List.filter first_cell_truthy
                      (take (first_index first_cell_none rows) rows)))%nat.
Proof.
  intros H. revert acc. induction H as [|row rows Hw _ IH]; intros acc.
  - exists acc. split; [reflexivity|]. simpl. lia.
  - destruct (wide_cells row Hw) as [c0 [c1 [c2 [tail ->]]]].
    destruct (excel_row_action_wide c0 c1 c2 tail) as [p [_ Hact]].
    cbn [excel_rows]. rewrite Hact. cbn [mbind outcome_bind first_index].
    change (first_cell_none (c0 :: c1 :: c2 :: tail)) with (first_cell_none [c0]).
    destruct (first_cell_none [c0]) eqn:E0.
    + exists acc. split; [reflexivity|]. simpl. lia.
    + cbn [take List.filter first_cell_truthy]. destruct (truthy c0).
      * destruct (IH (acc ++ [{| model := strip (py_str c0);
                                 variant := strip (py_str (or_empty c1));
                                 priceRange := p |}])) as [models [Hm Hl]].
        exists models. split; [exact Hm|]. rewrite Hl, length_app. simpl. lia.
      * destruct (IH acc) as [models [Hm Hl]]. exists models. split; [exact Hm|exact Hl].
Qed.

(** ** Number of records of a category *)

(** C2, as the spec has it, fails on a sheet: a row whose first cell is the
    empty text, or zero, is passed over and the rows after it are still
    emitted, so the count is not the index of the first row with an empty
    model. *)
Lemma excel_count_not_first_empty :
  (let rows := [ [PyStr []; PyStr (u8 "LS-A"); PyStr (u8 "100")];
                 [PyStr (u8 "D-MAX"); PyStr (u8 "LS"); PyStr (u8 "200")] ] in
   first_index first_cell_empty rows = 0%nat
   /\ exists models, excel_rows rows [] = Return models /\ length models = 1%nat)
  /\ (let rows := [ [PyInt 0; PyStr (u8 "LS-A"); PyStr (u8 "100")];
                    [PyStr (u8 "D-MAX"); PyStr (u8 "LS"); PyStr (u8 "200")];
                    [PyNone; PyNone; PyNone] ] in
      first_index first_cell_empty rows = 2%nat
      /\ exists models, excel_rows rows [] = Return models /\ length models = 1%nat).
Proof.
  split; (split; [reflexivity|]); eexists; (split; [vm_compute; reflexivity|reflexivity]).
Qed.

(** C2 (amended): in a file whose rows all have their "Variant" field, the
    number of records is the index of the first row whose "Model" field is
    missing or empty, or the number of rows when there is none; in a sheet
    at least three cells wide, it is the number of rows with a truthy first
    cell among the rows before the first row whose first cell is [None]. *)
Theorem models_count :
  (forall rows : list csv_row,
     Forall (fun row => csv_variant_ok row = true) rows ->
     exists models,
       csv_rows rows [] = Return models
       /\ length models = first_index csv_model_missing rows)
  /\ (forall rows : list (list pyval),
        Forall wide rows ->
        exists models,
          excel_rows rows [] = Return models
          /\ length models
             = length (List.filter first_cell_truthy
                         (take (first_index first_cell_none rows) rows))).
Proof.
  split; intros rows H.
  - destruct (csv_rows_count rows [] H) as [models [Hm Hl]]. exists models. now split.
  - destruct (excel_rows_count rows [] H) as [models [Hm Hl]]. exists models. now split.
Qed.

Lemma models_count_witness :
  (let rows := DictReader
       [ [u8 "Model"; u8 "Variant"; u8 "2026 Price Range (SRP)"];
         [u8 "D-MAX"; u8 "LS"; u8 "P1070000 - P1140000"];
         [u8 "mu-X"; u8 "LS-E"; u8 "Price on Request"];
         [u8 ""; u8 ""; u8 ""];
         [u8 "Traviz"; u8 "L"; u8 "1000000"] ] in
   exists models,
     csv_rows rows [] = Return models
     /\ length models = first_index csv_model_missing rows)
  /\ (let rows := iter_rows_min_row_2
          [ [PyStr (u8 "Model"); PyStr (u8 "Variant"); PyStr (u8 "Price")];
            [PyStr (u8 "D-MAX"); PyStr (u8 "LS"); PyInt 1070000];
            [PyInt 0; PyNone; PyNone];
            [PyStr (u8 "mu-X"); PyNone; PyStr (u8 "Price on Request")];
            [PyNone; PyNone; PyNone];
            [PyStr (u8 "Traviz"); PyNone; PyNone] ] in
      exists models,
        excel_rows rows [] = Return models
        /\ length models
           = length (List.filter first_cell_truthy
                       (take (first_index first_cell_none rows) rows))).
Proof.
  split.
  - apply (proj1 models_count).
    repeat (constructor; [vm_compute; reflexivity|]). constructor.
  - apply (proj2 models_count).
    repeat (constructor; [unfold wide; simpl; lia|]). constructor.
Defined.

(** ** The stop test of the loop over a file *)

(** C3, as the spec has it, fails: the "Model" field is tested before it is
    stripped, so a row whose model is whitespace does not end the loop;
    it is emitted, with an empty model, and so are the rows after it. *)
Lemma csv_whitespace_model_emitted :
  let rows := DictReader
      [ [u8 "Model"; u8 "Variant"; u8 "2026 Price Range (SRP)"];
        [u8 "   "; u8 "LS"; u8 "100"];
        [u8 "D-MAX"; u8 "LS"; u8 "200"] ] in
  csv_rows rows []
  = Return [ {| model := []; variant := u8 "LS"; priceRange := u8 "₱100" |};
             {| model := u8 "D-MAX"; variant := u8 "LS"; priceRange := u8 "₱200" |} ].
Proof. vm_compute. reflexivity. Qed.

Lemma csv_rows_emitted (pre : list csv_row) (recs : list model_record) rest acc :
  Forall2 (fun r rec => csv_row_action r = Return (Emit rec)) pre recs ->
  csv_rows (pre ++ rest) acc = csv_rows rest (acc ++ recs).
Proof.
  intros H. revert acc. induction H as [|r rec pre recs Hr _ IH]; intros acc.
  - now rewrite app_nil_r.
  - cbn [app csv_rows]. rewrite Hr. cbn [mbind outcome_bind].
    rewrite IH, <- app_assoc. reflexivity.
Qed.

(** C3 (amended): the loop over a file stops, emitting nothing more, at the
    first row whose "Model" field is missing, [None] or the empty text; the
    field is not stripped for this test, so a row whose model is not empty
    but whitespace throughout goes on: it is emitted with an empty model
    (provided its "Variant" field is in place). *)
Theorem csv_stop_condition (pre : list csv_row) (recs : list model_record)
    (row : csv_row) (post : list csv_row) :
  Forall2 (fun r rec => csv_row_action r = Return (Emit rec)) pre recs ->
  (row !! key_Model = None \/ row !! key_Model = Some None
   \/ row !! key_Model = Some (Some []) ->
   csv_rows (pre ++ row :: post) [] = Return recs)
  /\ (forall ws,
        row !! key_Model = Some (Some ws) -> ws <> [] -> all_space ws ->
        csv_variant_ok row = true ->
        exists rec,
          model rec = []
          /\ csv_row_action row = Return (Emit rec)
          /\ csv_rows (pre ++ row :: post) [] = csv_rows post (recs ++ [rec])).
Proof.
  intros Hpre. split.
  - intros H. apply csv_model_missing_cases in H.
    rewrite (csv_rows_emitted pre recs _ [] Hpre). cbn [csv_rows app].
    now rewrite (csv_row_action_stop row H).
  - intros ws Hws Hne Hsp Hv.
    assert (csv_model_missing row = false) as Hm.
    { unfold csv_model_missing, row_get. rewrite Hws. destruct ws; [congruence|reflexivity]. }
    destruct (csv_row_action_emit row Hm Hv) as [m [rec [Hrow [Hact Hmodel]]]].
    exists rec. split; [|split; [exact Hact|]].
    + rewrite Hmodel. rewrite Hws in Hrow. injection Hrow as <-.
      now apply strip_all_space.
    + rewrite (csv_rows_emitted pre recs _ [] Hpre). cbn [csv_rows app].
      rewrite Hact. reflexivity.
Qed.

Lemma csv_stop_condition_witness :
  let header := [u8 "Model"; u8 "Variant"; u8 "2026 Price Range (SRP)"] in
  let r1 := dict_row header [u8 "D-MAX"; u8 "LS"; u8 "P1070000"] in
  let r2 := dict_row header [u8 ""; u8 "LS-A"; u8 "P1140000"] in
  let r3 := dict_row header [u8 "mu-X"; u8 "LS-E"; u8 "TBD"] in
  csv_rows ([r1] ++ r2 :: [r3]) []
  = Return [ {| model := u8 "D-MAX"; variant := u8 "LS"; priceRange := u8 "₱1,070,000" |} ].
Proof.
  intros header r1 r2 r3.
  apply (proj1 (csv_stop_condition [r1] _ r2 [r3]
                  ltac:(repeat constructor; vm_compute; reflexivity))).
  right. right. vm_compute. reflexivity.
Defined.

(** ** The emission test of the loop over a sheet *)

(** C4, as the spec has it, fails both ways: a first cell of whitespace is
    emitted (its model is then empty), and a first cell holding zero is
    passed over although its text, "0", is not empty. *)
Lemma excel_emission_not_by_stripped_text :
  (strip (py_str (PyStr (u8 "  "))) = []
   /\ excel_row_action [PyStr (u8 "  "); PyStr (u8 "LS"); PyStr (u8 "100")]
      = Return (Emit {| model := []; variant := u8 "LS"; priceRange := u8 "₱100" |}))
  /\ (strip (py_str (PyInt 0)) = u8 "0"
      /\ excel_row_action [PyInt 0; PyStr (u8 "LS"); PyStr (u8 "100")] = Return Skip).
Proof. repeat split; vm_compute; reflexivity. Qed.

(** C4 (amended): on a row of three cells or more whose first cell is not
    [None], a record is emitted if and only if the first cell is truthy (a
    text that is not empty before any stripping, a number other than
    zero, [True]); otherwise the row is passed over.  The emitted model is
    the stripped text of the cell, which is empty when the cell is
    whitespace. *)
Theorem excel_emission_condition (c0 c1 c2 : pyval) (tail : list pyval) :
  c0 <> PyNone ->
  ((exists rec, excel_row_action (c0 :: c1 :: c2 :: tail) = Return (Emit rec))
   <-> truthy c0 = true)
  /\ (truthy c0 = false -> excel_row_action (c0 :: c1 :: c2 :: tail) = Return Skip)
  /\ (forall rec,
        excel_row_action (c0 :: c1 :: c2 :: tail) = Return (Emit rec) ->
        model rec = strip (py_str c0)).
Proof.
  intros Hnone.
  destruct (excel_row_action_wide c0 c1 c2 tail) as [p [_ Hact]].
  assert (first_cell_none [c0] = false) as E0 by (destruct c0; [congruence|reflexivity..]).
  rewrite E0 in Hact. rewrite Hact. destruct (truthy c0).
  - split; [split; [reflexivity|eauto]|]. split; [discriminate|].
    now intros rec [= <-].
  - split; [split; [intros [rec H]; discriminate|discriminate]|].
    split; [reflexivity|discriminate].
Qed.

Lemma excel_emission_condition_witness :
  (exists rec,
     excel_row_action [PyStr (u8 " D-MAX "); PyNone; PyInt 1070000; PyNone]
     = Return (Emit rec))
  <-> truthy (PyStr (u8 " D-MAX ")) = true.
Proof.
  apply (excel_emission_condition (PyStr (u8 " D-MAX ")) PyNone (PyInt 1070000) [PyNone]).
  discriminate.
Defined.

(** ** Absent cells *)

(** A cell that is there but empty counts as the empty text: variant and
    price are then empty. *)
Lemma excel_empty_cells c0 tail :
  truthy c0 = true ->
  excel_row_action (c0 :: PyNone :: PyNone :: tail)
  = Return (Emit {| model := strip (py_str c0); variant := []; priceRange := [] |}).
Proof.
  intros H. destruct (excel_row_action_wide c0 PyNone PyNone tail) as [p [Hp Hact]].
  rewrite Hact. injection Hp as <-. rewrite H.
  destruct c0; [discriminate|reflexivity..].
Qed.

(** C5: on a sheet with fewer than three columns the rows are shorter than
    three cells, and reading the second or third cell raises [IndexError]:
    the absent cell is not taken as the empty text, and the run ends
    there. *)
Theorem excel_short_row_raises :
  excel_row_action [PyStr (u8 "D-MAX")] = Raise IndexError
  /\ excel_row_action [PyStr (u8 "D-MAX"); PyStr (u8 "LS")] = Raise IndexError
  /\ excel_to_json
       {[ u8 "vehicles.xlsx" :=
            {[ u8 "Passenger Vehicles" :=
                 [ [PyStr (u8 "Model")]; [PyStr (u8 "D-MAX")] ] ]} ]}
       (u8 "vehicles.xlsx")
     = ([], Raise IndexError).
Proof. repeat split; vm_compute; reflexivity. Qed.

(** ** Categories without a source *)

Lemma csv_categories_loop dir mapping acc :
  csv_categories dir mapping acc
  = category_loop (csv_find dir) (fun entry => csv_warning entry.2) mapping acc.
Proof.
  revert acc. induction mapping as [|[key info] mapping IH]; intros acc; [reflexivity|].
  cbn [csv_categories category_loop]. unfold csv_find at 1. cbn [snd].
  destruct (dir !! csv_name info) as [records|].
  - destruct (csv_rows (DictReader records) []) as [models|e]; [|reflexivity].
    cbn [lift mbind io_bind]. now rewrite IH.
  - cbn [print mbind io_bind]. now rewrite IH.
Qed.

Lemma excel_categories_loop wb mapping acc :
  excel_categories wb mapping acc
  = category_loop (excel_find wb) (fun entry => excel_warning entry.1) mapping acc.
Proof.
  revert acc. induction mapping as [|[key info] mapping IH]; intros acc; [reflexivity|].
  cbn [excel_categories category_loop]. unfold excel_find at 1. cbn [fst snd].
  destruct (wb !! key) as [ws|].
  - destruct (excel_rows (iter_rows_min_row_2 ws) []) as [models|e]; [|reflexivity].
    cbn [lift mbind io_bind]. now rewrite IH.
  - cbn [print mbind io_bind]. now rewrite IH.
Qed.

Section CategoryLoop.

Variable find : pystr * category_info -> option (outcome (list model_record)).
Variable warn : pystr * category_info -> pystr.


(** The loop comes to its end when no extraction raises. *)
Lemma category_loop_returns mapping acc :
  (forall entry extracted,
     In entry mapping -> find entry = Some extracted -> exists ms, extracted = Return ms) ->
  exists log cats, category_loop find warn mapping acc = (log, Return cats).
Proof.
  revert acc. induction mapping as [|entry mapping IH]; intros acc Hok.
  - cbn. eauto.
  - cbn [category_loop].
    assert (forall entry' extracted,
              In entry' mapping -> find entry' = Some extracted ->
              exists ms, extracted = Return ms) as Hok'
      by (intros entry' extracted Hin; apply Hok; now right).
    destruct (find entry) as [extracted|] eqn:E.
    + destruct (Hok entry extracted (or_introl eq_refl) E) as [ms ->].
      cbn [lift mbind io_bind].
      destruct (IH (acc ++ [make_category entry.2 ms]) Hok') as [log [cats ->]]. eauto.
    + cbn [print mbind io_bind].
      destruct (IH acc Hok') as [log [cats ->]]. eauto.
Qed.

End CategoryLoop.

Lemma save_json_returns data : exists out, save_json data = (out, Return data).
Proof. unfold save_json. cbn [print mbind io_bind]. eauto. Qed.






(** The runs end with a document when no row is cut short: every file has
    its "Variant" field in every row, every sheet is three columns wide. *)
Lemma csv_to_json_returns (dir : gmap pystr (list (list pystr))) :
  (forall name records,
     dir !! name = Some records ->
     Forall (fun row => csv_variant_ok row = true) (DictReader records)) ->
  exists log doc, csv_to_json (Some dir) = (log, Return doc).
Proof.
  intros Hok. unfold csv_to_json. rewrite csv_categories_loop.
  destruct (category_loop_returns (csv_find dir) (fun entry => csv_warning entry.2)
              CATEGORY_MAPPING []) as [log [cats ->]].
  { intros entry extracted _. unfold csv_find.
    destruct (dir !! csv_name entry.2) as [records|] eqn:E; [|discriminate].
    intros [= <-]. destruct (csv_rows_count _ [] (Hok _ _ E)) as [ms [-> _]]. eauto. }
  cbn [mbind io_bind].
  destruct (save_json_returns {| categories := cats |}) as [log2 ->]. eauto.
Qed.

Lemma excel_to_json_returns (files : gmap pystr (gmap pystr sheet)) excel_file wb :
  files !! excel_file = Some wb ->
  (forall name ws, wb !! name = Some ws -> Forall wide (iter_rows_min_row_2 ws)) ->
  exists log doc, excel_to_json files excel_file = (log, Return doc).
Proof.
  intros Hfile Hok. unfold excel_to_json. rewrite Hfile, excel_categories_loop.
  destruct (category_loop_returns (excel_find wb) (fun entry => excel_warning entry.1)
              CATEGORY_MAPPING []) as [log [cats ->]].
  { intros entry extracted _. unfold excel_find.
    destruct (wb !! entry.1) as [ws|] eqn:E; [|discriminate].
    intros [= <-]. destruct (excel_rows_count _ [] (Hok _ _ E)) as [ms [-> _]]. eauto. }
  cbn [mbind io_bind].
  destruct (save_json_returns {| categories := cats |}) as [log2 ->]. eauto.
Qed.

(** Without [templates/], or without the workbook, the run stops at once
    with exit status 1 and prints no warning. *)
Lemma missing_root_exits :
  csv_to_json None
  = ([u8 "Error: templates/ directory not found."], Raise (SystemExit 1))
  /\ forall excel_file,
       excel_to_json ∅ excel_file
       = ([u8 "Error: File '" ++ excel_file ++ u8 "' not found."], Raise (SystemExit 1)).
Proof. split; [reflexivity|]. intros excel_file. unfold excel_to_json. reflexivity. Qed.




(** * Further properties *)

(** ** Trimmed text *)

Lemma lstrip_idem s : lstrip (lstrip s) = lstrip s.
Proof.
  destruct (lstrip s) as [|c r] eqn:E; [reflexivity|].
  apply lstrip_head. exact (lstrip_not_space_head s c r E).
Qed.

Lemma rstrip_idem s : rstrip (rstrip s) = rstrip s.
Proof. unfold rstrip. now rewrite rev_involutive, lstrip_idem. Qed.

Lemma rstrip_split s : exists b, all_space b /\ s = rstrip s ++ b.
Proof.
  destruct (lstrip_split (rev s)) as [b [Hb Hs]]. exists (rev b).
  split; [now apply all_space_rev|]. unfold rstrip.
  rewrite <- rev_app_distr, <- Hs. now rewrite rev_involutive.
Qed.

Lemma lstrip_rstrip s : lstrip s = s -> lstrip (rstrip s) = rstrip s.
Proof.
  intros H. destruct (rstrip_split s) as [b [_ Hs]].
  destruct (rstrip s) as [|c r] eqn:E; [reflexivity|].
  apply lstrip_head. rewrite Hs in H. cbn [app] in H.
  exact (lstrip_not_space_head _ c _ H).
Qed.

Lemma strip_trimmed s : trimmed (strip s).
Proof.
  unfold trimmed, strip. rewrite (lstrip_rstrip (lstrip s) (lstrip_idem s)).
  apply rstrip_idem.
Qed.

Lemma trimmed_ends c body last :
  is_space c = false -> is_space last = false -> trimmed (c :: body ++ [last]).
Proof.
  intros Hc Hl. unfold trimmed, strip. rewrite lstrip_head by exact Hc.
  change (c :: body ++ [last]) with ((c :: body) ++ [last]). now apply rstrip_last.
Qed.

Lemma peso_not_space : is_space peso = false.
Proof. reflexivity. Qed.

Lemma glyph_shaped_trimmed f : glyph_shaped f -> trimmed f.
Proof. intros [body [last [-> Hl]]]. now apply trimmed_ends. Qed.

(** Whitespace around the text does not survive [strip]. *)
Lemma strip_padded a s b : all_space a -> all_space b -> strip (a ++ s ++ b) = strip s.
Proof.
  intros Ha Hb. unfold strip.
  rewrite (lstrip_app_space a _ Ha), (lstrip_trail s b Hb).
  destruct (lstrip s) as [|c r]; [reflexivity|]. cbn [trail].
  unfold rstrip. rewrite rev_app_distr, lstrip_app_space; [reflexivity|].
  now apply all_space_rev.
Qed.

(** ** The shape of a formatted part *)

Lemma group3_rev_head d l : exists t, group3_rev (d :: l) = d :: t.
Proof. destruct l as [|b [|c [|e r]]]; cbn; eauto. Qed.

Lemma format_int_commas_last n :
  exists body d, format_int_commas n = body ++ [d] /\ is_digit d = true.
Proof.
  unfold format_int_commas.
  destruct (exists_last (str_of_N_nonempty n)) as [ds [d E]].
  assert (is_digit d = true) as Hd.
  { pose proof (uint_chars_digits (N.to_uint n)) as H. unfold str_of_N in E.
    rewrite E in H. apply Forall_app in H as [_ H]. now inversion H. }
  rewrite E, rev_app_distr. cbn [rev app].
  destruct (group3_rev_head d (rev ds)) as [t ->].
  exists (rev t), d. split; [reflexivity|exact Hd].
Qed.

Lemma small_digit_not_space k : k < 10 -> is_space (0x30 + k) = false.
Proof.
  intros H. destruct (is_space (0x30 + k)) eqn:E; [exfalso|reflexivity]. char_class.
Qed.

Lemma format_float_2f_last v :
  exists body last, format_float_2f v = body ++ [last] /\ is_space last = false.
Proof.
  destruct v as [m e|].
  - cbn [format_float_2f]. eexists (_ ++ [dot; _]), _.
    split; [rewrite <- app_assoc; reflexivity|].
    apply small_digit_not_space. now apply N.mod_lt.
  - exists [0x69; 0x6E], 0x66. split; reflexivity.
Qed.

(** Whatever the [try] block returns is the glyph followed by text that
    does not end in whitespace. *)
Lemma format_number_shape num f : format_number num = Return f -> glyph_shaped f.
Proof.
  unfold format_number. destruct (existsb (N.eqb dot) num).
  - destruct (py_float num) as [v|e]; [|discriminate]. cbn [mbind outcome_bind].
    intros [= <-]. destruct (format_float_2f_last v) as [body [last [-> Hl]]].
    now exists body, last.
  - destruct (py_int num) as [n|e]; [|discriminate]. cbn [mbind outcome_bind].
    intros [= <-]. destruct (format_int_commas_last n) as [body [d [-> Hd]]].
    exists body, d. split; [reflexivity|now apply digit_not_space].
Qed.

Lemma join_shape sep f fs :
  glyph_shaped f -> Forall glyph_shaped fs -> glyph_shaped (join sep (f :: fs)).
Proof.
  intros Hf Hfs. revert f Hf. induction Hfs as [|g fs Hg _ IH]; intros f Hf; [exact Hf|].
  rewrite join_cons by discriminate.
  destruct Hf as [body [last [-> _]]]. destruct (IH g Hg) as [body' [last' [-> Hl']]].
  exists (body ++ [last] ++ sep ++ peso :: body'), last'. split; [|exact Hl'].
  cbn [app]. f_equal. rewrite <- !app_assoc. cbn [app]. now rewrite <- !app_assoc.
Qed.

(** The loop returns [s] as it is, or the formatted parts, joined. *)
Lemma format_parts_shape s parts acc out :
  Forall glyph_shaped acc ->
  format_parts s parts acc = Return out ->
  out = s
  \/ exists fs, out = join range_sep fs /\ Forall glyph_shaped fs
                /\ length fs = (length acc + length parts)%nat.
Proof.
  revert acc. induction parts as [|part parts IH]; intros acc Hacc; cbn [format_parts].
  - rewrite join_single_or_many. intros [= <-]. right. exists acc.
    split; [reflexivity|]. split; [exact Hacc|]. simpl. lia.
  - destruct (re_sub_non_numeric part) as [|c num] eqn:E; [intros [= <-]; now left|].
    destruct (format_number (c :: num)) as [f|e] eqn:Ef; [|intros [= <-]; now left].
    intros H. apply IH in H.
    + destruct H as [H|[fs [H1 [H2 H3]]]]; [now left|]. right. exists fs.
      split; [exact H1|]. split; [exact H2|]. rewrite H3, length_app. simpl. lia.
    + apply Forall_app. split; [exact Hacc|]. constructor; [|constructor].
      exact (format_number_shape _ _ Ef).
Qed.

Lemma re_split_nonempty s : re_split s <> [].
Proof. rewrite re_split_unfold. destruct (find_sep s) as [[b r]|]; discriminate. Qed.

Lemma format_result_trimmed (raw : pyval) (out : pystr) :
  format_price_range raw = Return out -> trimmed out.
Proof.
  assert (forall t, (match t with
                     | [] => Return []
                     | _ :: _ =>
                       if contains request (lower t) then Return price_on_request
                       else format_parts t (re_split t) []
                     end) = Return out -> trimmed t -> trimmed out) as Hcases.
  { intros t H Ht. destruct t as [|c t']; [injection H as <-; reflexivity|].
    destruct (contains request _); [injection H as <-; reflexivity|].
    apply format_parts_shape in H; [|constructor].
    destruct H as [->|[fs [-> [Hfs Hlen]]]]; [exact Ht|].
    destruct fs as [|f fs].
    { exfalso. pose proof (re_split_nonempty (c :: t')) as Hne.
      destruct (re_split (c :: t')); [congruence|simpl in Hlen; lia]. }
    inversion Hfs; subst. apply glyph_shaped_trimmed. now apply join_shape. }
  destruct raw; [intros [= <-]; reflexivity|..]; intros H;
    (eapply Hcases; [exact H|apply strip_trimmed]).
Qed.

(** X1: whatever value is given, the text that the formatter returns has
    no whitespace at either end. *)
Theorem format_price_range_trimmed (raw : pyval) (out : pystr) :
  format_price_range raw = Return out -> trimmed out.
Proof. apply format_result_trimmed. Qed.

Lemma format_price_range_trimmed_witness :
  trimmed (u8 "₱1,070,000 – ₱1,140,000").
Proof.
  apply (format_price_range_trimmed (PyStr (u8 "  P1070000 -  P1140000 "))).
  reflexivity.
Defined.

(** X2: whitespace before and after the text plays no part in the result. *)
Theorem format_price_range_padding (a s b : pystr) :
  all_space a -> all_space b ->
  format_price_range (PyStr (a ++ s ++ b)) = format_price_range (PyStr s).
Proof.
  intros Ha Hb. unfold format_price_range, py_str.
  now rewrite (strip_padded a s b Ha Hb).
Qed.

Lemma format_price_range_padding_witness :
  format_price_range (PyStr (u8 "  " ++ u8 "P1070000 - TBD" ++ [0x09; 0x0A]))
  = format_price_range (PyStr (u8 "P1070000 - TBD")).
Proof.
  apply (format_price_range_padding (u8 "  ") (u8 "P1070000 - TBD") [0x09; 0x0A]);
    repeat constructor.
Defined.

(** ** Integers read back *)

Lemma uint_of_chars_chars u : uint_of_chars (uint_chars u) = u.
Proof. induction u; cbn [uint_chars uint_of_chars]; [reflexivity|..]; eval_char_digit; now rewrite IHu. Qed.

(** [int(str(n))] is [n]. *)
Lemma digits_value_str_of_N n : digits_value (str_of_N n) = n.
Proof.
  unfold str_of_N. rewrite digits_value_of_uint by apply uint_chars_digits.
  rewrite uint_of_chars_chars. apply DecimalN.Unsigned.of_to.
Qed.

Lemma no_space_strip s : no_space s -> strip s = s.
Proof.
  intros H. unfold strip, rstrip.
  assert (forall t, no_space t -> lstrip t = t) as Hl.
  { intros t Ht. destruct Ht as [|c t Hc _]; [reflexivity|now apply lstrip_head]. }
  rewrite (Hl s H), (Hl (rev s)); [apply rev_involutive|now apply List.Forall_rev].
Qed.

Lemma contains_head_in c needle hay : contains (c :: needle) hay = true -> In c hay.
Proof.
  rewrite contains_spec. intros [pre [post ->]]. apply in_or_app. right. now left.
Qed.

Lemma no_r_not_request s : no_r s -> contains request (lower s) = false.
Proof.
  intros H. destruct (contains request (lower s)) eqn:E; [exfalso|reflexivity].
  apply contains_head_in in E. unfold lower in E. apply in_flat_map in E as [c [Hc Hin]].
  unfold no_r in H. rewrite List.Forall_forall in H. destruct (H c Hc) as [H1 H2].
  unfold lower_cp in Hin.
  destruct ((0x41 <=? c) && (c <=? 0x5A)) eqn:E1.
  - destruct Hin as [Hin|[]]. lia.
  - destruct (c =? 0x130); [destruct Hin as [Hin|[Hin|[]]]; discriminate|].
    destruct (c =? 0x212A); [destruct Hin as [Hin|[]]; discriminate|].
    destruct Hin as [Hin|[]]. congruence.
Qed.

Lemma digit_no_r c : is_digit c = true -> c <> 0x72 /\ c <> 0x52.
Proof. intros H. char_class. Qed.

(** Text that is digits throughout is formatted as one integer. *)
Lemma format_price_range_digits ds :
  ds <> [] -> all_digits ds -> (length ds <= int_max_str_digits)%nat ->
  format_price_range (PyStr ds) = Return (peso :: format_int_commas (digits_value ds)).
Proof.
  intros Hne Hd Hshort.
  assert (strip ds = ds) as Hs.
  { apply no_space_strip. eapply List.Forall_impl; [|exact Hd]. exact digit_not_space. }
  rewrite format_price_range_str; rewrite Hs.
  - destruct ds as [|c ds']; [congruence|].
    rewrite re_split_no_dash
      by (eapply List.Forall_impl; [|exact Hd]; exact digit_not_dash).
    cbn [format_parts]. unfold re_sub_non_numeric.
    rewrite filter_all by (eapply List.Forall_impl; [|exact Hd]; exact digit_numeric).
    now rewrite (format_number_digits (c :: ds') Hne Hd Hshort).
  - apply no_r_not_request. eapply List.Forall_impl; [|exact Hd]. exact digit_no_r.
Qed.

(** X3: an integer value of at most 4300 digits that is not negative, such
    as a numeric price cell, is formatted as the glyph and the number with
    thousands separators; a negative one comes back as its own text, the
    sign being read as a range dash with nothing before it. *)
Theorem format_price_range_int (z : Z) :
  str_returns (PyInt z) = true ->
  format_price_range (PyInt z)
  = Return (if (z <? 0)%Z then str_of_Z z
            else peso :: format_int_commas (Z.to_N z)).
Proof.
  intros Hstr. cbn [str_returns] in Hstr. apply Nat.leb_le in Hstr.
  destruct (Z.ltb_spec z 0) as [Hneg|Hpos].
  - assert (str_of_Z z = 0x2D :: str_of_N (Z.to_N (- z))) as E.
    { unfold str_of_Z. now rewrite (proj2 (Z.ltb_lt z 0) Hneg). }
    pose proof (uint_chars_digits (N.to_uint (Z.to_N (- z)))) as Hd.
    fold (str_of_N (Z.to_N (- z))) in Hd.
    destruct (exists_last (str_of_N_nonempty (Z.to_N (- z)))) as [ds [d Eds]].
    assert (is_space d = false) as Hsp.
    { rewrite Eds in Hd. apply Forall_app in Hd as [_ Hd]. inversion Hd; subst.
      now apply digit_not_space. }
    assert (strip (str_of_Z z) = str_of_Z z) as Hs.
    { rewrite E, Eds. now apply trimmed_ends. }
    assert (contains request (lower (str_of_Z z)) = false) as Hreq.
    { apply no_r_not_request. rewrite E. constructor; [split; discriminate|].
      eapply List.Forall_impl; [|exact Hd]. exact digit_no_r. }
    change (format_price_range (PyInt z)) with (format_price_range (PyStr (str_of_Z z))).
    rewrite format_price_range_str; rewrite Hs; [|exact Hreq].
    rewrite E. rewrite re_split_unfold.
    rewrite (find_sep_here (0x2D :: str_of_N (Z.to_N (- z)))
               (lstrip (str_of_N (Z.to_N (- z))))) by reflexivity.
    reflexivity.
  - assert (str_of_Z z = str_of_N (Z.to_N z)) as E.
    { unfold str_of_Z. now rewrite (proj2 (Z.ltb_ge z 0) Hpos). }
    change (format_price_range (PyInt z)) with (format_price_range (PyStr (str_of_Z z))).
    rewrite E, format_price_range_digits.
    + now rewrite digits_value_str_of_N.
    + apply str_of_N_nonempty.
    + apply uint_chars_digits.
    + now rewrite <- (Zabs2N.abs_N_nonneg z Hpos).
Qed.

Lemma format_price_range_int_witness :
  format_price_range (PyInt 1070000) = Return (u8 "₱1,070,000").
Proof.
  rewrite (format_price_range_int 1070000) by (vm_compute; reflexivity).
  vm_compute. reflexivity.
Defined.

Example format_price_range_int_examples :
  List.map (fun z => format_price_range (PyInt z)) [1070000; 0; -2500]%Z
  = List.map (fun t => Return (u8 t)) ["₱1,070,000"; "₱0"; "-2500"]%string.
Proof. reflexivity. Qed.

(** ** Formatting what was formatted *)

Lemma comma_not_numeric : is_numeric_char comma = false.
Proof. reflexivity. Qed.

Lemma sub_join_comma groups :
  Forall all_digits groups ->
  re_sub_non_numeric (join [comma] groups) = concat groups.
Proof.
  induction 1 as [|g groups Hg Hgs IH]; [reflexivity|].
  assert (re_sub_non_numeric g = g) as Eg.
  { apply filter_all. eapply List.Forall_impl; [|exact Hg]. exact digit_numeric. }
  destruct groups as [|h groups].
  - cbn [join concat]. now rewrite app_nil_r.
  - rewrite join_cons by discriminate. rewrite !sub_app, IH, Eg.
    cbn [concat]. reflexivity.
Qed.

Lemma join_comma_chars groups :
  Forall all_digits groups ->
  Forall (fun c => is_digit c = true \/ c = comma) (join [comma] groups).
Proof.
  induction 1 as [|g groups Hg Hgs IH]; [constructor|].
  assert (Forall (fun c => is_digit c = true \/ c = comma) g) as Hg'
    by (eapply List.Forall_impl; [|exact Hg]; tauto).
  destruct groups as [|h groups]; [exact Hg'|].
  rewrite join_cons by discriminate.
  apply Forall_app. split; [exact Hg'|]. constructor; [now right|exact IH].
Qed.

(** A formatted integer: digits and commas, and the digits are those of
    the number. *)
Lemma format_int_commas_chars n :
  Forall (fun c => is_digit c = true \/ c = comma) (format_int_commas n)
  /\ re_sub_non_numeric (format_int_commas n) = str_of_N n.
Proof.
  destruct (format_int_commas_groups n) as [groups [-> [Hc _]]].
  assert (Forall all_digits groups) as Hg.
  { apply List.Forall_concat. rewrite Hc. apply uint_chars_digits. }
  split; [now apply join_comma_chars|]. now rewrite sub_join_comma.
Qed.

Lemma int_shaped_facts_of f : int_shaped f -> int_shaped_facts f.
Proof.
  intros [n [Hn ->]]. destruct (format_int_commas_chars n) as [Hch Hsub].
  assert (forall P : N -> Prop,
            P peso -> (forall c, is_digit c = true -> P c) -> P comma ->
            Forall P (peso :: format_int_commas n)) as Hall.
  { intros P Hp Hd Hc. constructor; [exact Hp|].
    eapply List.Forall_impl; [|exact Hch]. intros c [H| ->]; auto. }
  split.
  - apply Hall; [reflexivity|exact digit_not_space|reflexivity].
  - apply Hall; [reflexivity|exact digit_not_dash|reflexivity].
  - apply Hall; [split; discriminate|exact digit_no_r|split; discriminate].
  - eauto.
  - assert (re_sub_non_numeric (peso :: format_int_commas n) = str_of_N n) as ->.
    { unfold re_sub_non_numeric in *. cbn [List.filter].
      change (is_numeric_char peso) with false. exact Hsub. }
    split; [apply str_of_N_nonempty|].
    rewrite format_number_digits;
      [now rewrite digits_value_str_of_N|apply str_of_N_nonempty
       |apply uint_chars_digits|exact Hn].
Qed.

Lemma join_range_head f fs :
  int_shaped f -> exists t, join range_sep (f :: fs) = peso :: t.
Proof.
  intros [n [_ ->]]. destruct fs; [cbn; eauto|].
  rewrite join_cons by discriminate. cbn [app]. eauto.
Qed.

(** [re.split] finds the formatted parts back in their join. *)
Lemma re_split_join f fs :
  int_shaped f -> Forall int_shaped fs ->
  re_split (join range_sep (f :: fs)) = f :: fs.
Proof.
  intros Hf Hfs. revert f Hf. induction Hfs as [|g fs Hg _ IH]; intros f Hf.
  - cbn [join]. apply re_split_no_dash. now apply int_shaped_facts_of.
  - rewrite join_cons by discriminate.
    destruct (int_shaped_facts_of f Hf) as [Hs Hd _ _ _].
    destruct (join_range_head g fs Hg) as [t Ht].
    change (f ++ range_sep ++ join range_sep (g :: fs))
      with (f ++ [0x20] ++ 0x2013 :: [0x20] ++ join range_sep (g :: fs)).
    rewrite re_split_unfold.
    rewrite (find_sep_part f [0x20] 0x2013 [0x20] (join range_sep (g :: fs)));
      [now rewrite IH|exact Hs|exact Hd|repeat constructor|reflexivity
       |repeat constructor|now rewrite Ht].
Qed.

Lemma join_range_no_r fs : Forall int_shaped fs -> no_r (join range_sep fs).
Proof.
  induction 1 as [|f fs Hf Hfs IH]; [constructor|].
  destruct (int_shaped_facts_of f Hf) as [_ _ Hr _ _].
  destruct fs as [|g fs]; [exact Hr|]. rewrite join_cons by discriminate.
  apply Forall_app. split; [exact Hr|]. apply Forall_app. split; [|exact IH].
  repeat constructor; discriminate.
Qed.

Lemma int_shaped_glyph f : int_shaped f -> glyph_shaped f.
Proof.
  intros [n [_ ->]]. destruct (format_int_commas_last n) as [body [d [-> Hd]]].
  exists body, d. split; [reflexivity|now apply digit_not_space].
Qed.

(** A join of formatted integers is formatted to itself. *)
Lemma format_price_range_join f fs :
  int_shaped f -> Forall int_shaped fs ->
  format_price_range (PyStr (join range_sep (f :: fs)))
  = Return (join range_sep (f :: fs)).
Proof.
  intros Hf Hfs.
  assert (Forall int_shaped (f :: fs)) as Hall by now constructor.
  assert (strip (join range_sep (f :: fs)) = join range_sep (f :: fs)) as Hs.
  { apply glyph_shaped_trimmed. apply join_shape; [now apply int_shaped_glyph|].
    eapply List.Forall_impl; [|exact Hfs]. exact int_shaped_glyph. }
  rewrite format_price_range_str; rewrite Hs;
    [|apply no_r_not_request; now apply join_range_no_r].
  destruct (join_range_head f fs Hf) as [t Ht].
  destruct (join range_sep (f :: fs)) as [|c t'] eqn:E; [discriminate|].
  rewrite <- E, (re_split_join f fs Hf Hfs).
  apply (format_parts_ok _ _ _ []).
  clear -Hall. induction Hall as [|g gs Hg _ IH]; constructor; [|exact IH].
  now destruct (int_shaped_facts_of g Hg) as [_ _ _ _ Hagain].
Qed.

Lemma sub_no_dot part : no_dot part -> no_dot (re_sub_non_numeric part).
Proof.
  unfold no_dot, re_sub_non_numeric. rewrite !List.Forall_forall.
  intros H c Hc. apply filter_In in Hc as [Hc _]. now apply H.
Qed.

Lemma no_dot_existsb s : no_dot s -> existsb (N.eqb dot) s = false.
Proof. induction 1 as [|c s Hc _ IH]; cbn [existsb]; [reflexivity|]. now rewrite Hc. Qed.

Lemma lstrip_zeros_length s : (length (lstrip_zeros s) <= length s)%nat.
Proof.
  induction s as [|c s IH]; [reflexivity|]. cbn [lstrip_zeros].
  destruct (c =? 0x30); cbn [length]; lia.
Qed.

Lemma canonical_digits_length s :
  s <> [] -> (length (canonical_digits s) <= length s)%nat.
Proof.
  intros Hne. unfold canonical_digits. pose proof (lstrip_zeros_length s) as H.
  destruct (lstrip_zeros s); [|exact H].
  destruct s; [congruence|cbn [length]; lia].
Qed.

(** What [int()] converts, [str()] renders. *)
Lemma py_int_short s n :
  py_int s = Return n -> (length (str_of_N n) <= int_max_str_digits)%nat.
Proof.
  unfold py_int. destruct s as [|c s]; [discriminate|].
  destruct (forallb is_digit (c :: s)) eqn:Ed; [|discriminate].
  destruct (Nat.ltb_spec int_max_str_digits (length (c :: s))) as [|Hshort];
    [discriminate|].
  intros [= <-]. rewrite str_of_digits_value by now apply forallb_Forall.
  etransitivity; [apply canonical_digits_length; discriminate|exact Hshort].
Qed.

Lemma format_number_no_dot num f :
  no_dot num -> format_number num = Return f -> int_shaped f.
Proof.
  intros Hnd. unfold format_number. rewrite (no_dot_existsb num Hnd).
  destruct (py_int num) as [n|e] eqn:En; [|discriminate]. cbn [mbind outcome_bind].
  intros [= <-]. exists n. split; [exact (py_int_short num n En)|reflexivity].
Qed.

(** On parts without a point the loop returns [s], or a join of formatted
    integers. *)
Lemma format_parts_int_shape s parts acc out :
  Forall no_dot parts -> Forall int_shaped acc ->
  format_parts s parts acc = Return out ->
  out = s
  \/ exists fs, out = join range_sep fs /\ Forall int_shaped fs
                /\ length fs = (length acc + length parts)%nat.
Proof.
  intros Hparts. revert acc.
  induction Hparts as [|part parts Hp _ IH]; intros acc Hacc; cbn [format_parts].
  - rewrite join_single_or_many. intros [= <-]. right. exists acc.
    split; [reflexivity|]. split; [exact Hacc|]. simpl. lia.
  - pose proof (sub_no_dot part Hp) as Hnum.
    destruct (re_sub_non_numeric part) as [|c num] eqn:E; [intros [= <-]; now left|].
    destruct (format_number (c :: num)) as [f|e] eqn:Ef; [|intros [= <-]; now left].
    intros H. apply IH in H.
    + destruct H as [H|[fs [H1 [H2 H3]]]]; [now left|]. right. exists fs.
      split; [exact H1|]. split; [exact H2|]. rewrite H3, length_app. simpl. lia.
    + apply Forall_app. split; [exact Hacc|]. constructor; [|constructor].
      exact (format_number_no_dot _ _ Hnum Ef).
Qed.

Lemma lstrip_Forall (P : N -> Prop) s : Forall P s -> Forall P (lstrip s).
Proof.
  induction 1 as [|c s Hc Hs IH]; [constructor|].
  cbn [lstrip]. destruct (is_space c); [exact IH|now constructor].
Qed.

Lemma match_sep_Forall (P : N -> Prop) s r :
  Forall P s -> match_sep s = Some r -> Forall P r.
Proof.
  intros H. unfold match_sep. pose proof (lstrip_Forall P s H) as Hl.
  destruct (lstrip s) as [|c t]; [discriminate|].
  destruct (is_dash c); [|discriminate]. intros [= <-].
  apply lstrip_Forall. now inversion Hl.
Qed.

Lemma find_sep_Forall (P : N -> Prop) s b r :
  Forall P s -> find_sep s = Some (b, r) -> Forall P b /\ Forall P r.
Proof.
  intros H. revert b. induction H as [|c s Hc Hs IH]; intros b.
  - cbn. discriminate.
  - destruct (match_sep (c :: s)) as [r'|] eqn:E.
    + rewrite (find_sep_here _ _ E). intros [= <- <-]. split; [constructor|].
      eapply match_sep_Forall; [|exact E]. now constructor.
    + rewrite (find_sep_later _ _ E).
      destruct (find_sep s) as [[b' r']|]; [|discriminate].
      intros [= <- <-]. destruct (IH b' eq_refl) as [Hb Hr].
      split; [now constructor|exact Hr].
Qed.

(** The parts hold characters of the text only. *)
Lemma re_split_Forall (P : N -> Prop) s :
  Forall P s -> Forall (Forall P) (re_split s).
Proof.
  remember (length s) as n eqn:Hn. revert s Hn.
  induction n as [n IH] using lt_wf_ind. intros s Hn H.
  rewrite re_split_unfold. destruct (find_sep s) as [[b r]|] eqn:E.
  - destruct (find_sep_Forall P s b r H E) as [Hb Hr].
    apply find_sep_length in E. constructor; [exact Hb|].
    apply (IH (length r)); [lia|reflexivity|exact Hr].
  - now repeat constructor.
Qed.

Lemma strip_Forall (P : N -> Prop) s : Forall P s -> Forall P (strip s).
Proof.
  intros H. destruct (strip_split s) as [a [b [_ [_ Hs]]]]. rewrite Hs in H.
  apply Forall_app in H as [_ H]. now apply Forall_app in H as [H _].
Qed.

(** X4: on text without a decimal point, formatting is idempotent: the
    returned text, formatted again, comes back as it is. *)
Theorem format_price_range_idempotent (raw : pyval) (out : pystr) :
  no_dot (py_str raw) ->
  format_price_range raw = Return out ->
  format_price_range (PyStr out) = Return out.
Proof.
  intros Hnd.
  assert (forall t, no_dot t -> trimmed t ->
            (match t with
             | [] => Return []
             | _ :: _ =>
               if contains request (lower t) then Return price_on_request
               else format_parts t (re_split t) []
             end) = Return out ->
            format_price_range (PyStr out) = Return out) as Hcases.
  { intros t Ht Htrim H. destruct t as [|c t']; [injection H as <-; reflexivity|].
    destruct (contains request (lower (c :: t'))) eqn:Ereq;
      [injection H as <-; reflexivity|].
    pose proof H as H'.
    apply format_parts_int_shape in H';
      [|apply re_split_Forall; exact Ht|constructor].
    destruct H' as [->|[fs [-> [Hfs Hlen]]]].
    - unfold trimmed in Htrim.
      rewrite format_price_range_str; rewrite Htrim; [exact H|exact Ereq].
    - destruct fs as [|f fs].
      { exfalso. pose proof (re_split_nonempty (c :: t')) as Hne.
        destruct (re_split (c :: t')); [congruence|simpl in Hlen; lia]. }
      inversion Hfs; subst. now apply format_price_range_join. }
  destruct raw; [intros [= <-]; reflexivity|..]; intros H;
    (eapply Hcases; [apply strip_Forall; exact Hnd|apply strip_trimmed|exact H]).
Qed.

Lemma format_price_range_idempotent_witness :
  format_price_range (PyStr (u8 "₱950,000 – ₱1,070,000"))
  = Return (u8 "₱950,000 – ₱1,070,000").
Proof.
  apply (format_price_range_idempotent (PyStr (u8 " Php950000-1070000 "))).
  - vm_compute. repeat constructor.
  - vm_compute. reflexivity.
Defined.

(** ** One turn of the loops, in full *)

Lemma price_text_returned raw p : format_price_range raw = Return p -> price_text raw = p.
Proof. intros H. unfold price_text. now rewrite H. Qed.

Lemma format_price_range_price_text raw : format_price_range raw = Return (price_text raw).
Proof.
  destruct (format_price_range_returns raw) as [p Hp].
  now rewrite (price_text_returned raw p Hp).
Qed.

Lemma csv_row_action_cases (row : csv_row) :
  csv_row_action row
  = if csv_model_missing row then Return Stop
    else if csv_variant_ok row then Return (Emit (csv_row_record row))
         else Raise AttributeError.
Proof.
  unfold csv_row_action, csv_model_missing, csv_variant_ok, csv_row_record.
  destruct (field_falsy (row_get row key_Model None)) eqn:Em; [reflexivity|].
  rewrite (format_price_range_price_text (field_value (row_get row key_Price (Some [])))).
  unfold row_get in *.
  destruct (row !! key_Model) as [[m|]|]; try discriminate.
  destruct (row !! key_Variant) as [[v|]|]; reflexivity.
Qed.

Lemma excel_row_action_cases (row : list pyval) :
  excel_row_action row
  = if first_cell_none row then Return Stop
    else if excel_row_short row then Raise IndexError
         else Return (if first_cell_truthy row then Emit (excel_record row) else Skip).
Proof.
  destruct row as [|c0 [|c1 [|c2 tail]]].
  - reflexivity.
  - destruct c0; reflexivity.
  - destruct c0; reflexivity.
  - destruct (excel_row_action_wide c0 c1 c2 tail) as [p [Hp ->]].
    change (first_cell_none (c0 :: c1 :: c2 :: tail)) with (first_cell_none [c0]).
    destruct (first_cell_none [c0]) eqn:E0; [reflexivity|].
    assert (excel_row_short (c0 :: c1 :: c2 :: tail) = false) as ->
      by (destruct c0; reflexivity).
    cbn [first_cell_truthy]. destruct (truthy c0); [|reflexivity].
    change (excel_record (c0 :: c1 :: c2 :: tail))
      with {| model := strip (py_str c0);
              variant := strip (py_str (or_empty c1));
              priceRange := price_text (or_empty c2) |}.
    now rewrite (price_text_returned _ _ Hp).
Qed.

(** ** What the loops return, and when they raise *)

Lemma csv_rows_result (rows : list csv_row) (acc : list model_record) :
  let before := take (first_index csv_model_missing rows) rows in
  csv_rows rows acc
  = if forallb csv_variant_ok before
    then Return (acc ++ map csv_row_record before)
    else Raise AttributeError.
Proof.
  revert acc. induction rows as [|row rows IH]; intros acc; cbn zeta in *.
  - cbn. now rewrite app_nil_r.
  - cbn [csv_rows first_index]. rewrite csv_row_action_cases.
    destruct (csv_model_missing row); cbn [mbind outcome_bind take forallb map].
    + now rewrite app_nil_r.
    + destruct (csv_variant_ok row); cbn [mbind outcome_bind andb]; [|reflexivity].
      rewrite IH. now rewrite <- app_assoc.
Qed.

Lemma excel_rows_result (rows : list (list pyval)) (acc : list model_record) :
  let before := take (first_index first_cell_none rows) rows in
  excel_rows rows acc
  = if existsb excel_row_short before
    then Raise IndexError
    else Return (acc ++ map excel_record (List.filter first_cell_truthy before)).
Proof.
  revert acc. induction rows as [|row rows IH]; intros acc; cbn zeta in *.
  - cbn. now rewrite app_nil_r.
  - cbn [excel_rows first_index]. rewrite excel_row_action_cases.
    destruct (first_cell_none row); cbn [mbind outcome_bind take existsb List.filter map].
    + now rewrite app_nil_r.
    + destruct (excel_row_short row); cbn [mbind outcome_bind orb]; [reflexivity|].
      destruct (first_cell_truthy row); cbn [map]; rewrite IH; [|reflexivity].
      destruct (existsb excel_row_short _); [reflexivity|]. now rewrite <- app_assoc.
Qed.

(** X5: the loop over a file whose rows all have their "Variant" field
    returns, in the order of the rows, the records of the rows before the
    first row without a model: model and variant stripped, the price
    formatted. *)
Theorem csv_rows_records (rows : list csv_row) :
  Forall (fun row => csv_variant_ok row = true) rows ->
  csv_rows rows []
  = Return (map csv_row_record (take (first_index csv_model_missing rows) rows)).
Proof.
  intros H. rewrite csv_rows_result. cbn zeta.
  assert (forallb csv_variant_ok (take (first_index csv_model_missing rows) rows) = true)
    as ->; [|reflexivity].
  apply forallb_forall. intros row Hin. rewrite List.Forall_forall in H. apply H.
  rewrite <- (firstn_skipn (first_index csv_model_missing rows) rows).
  apply in_or_app. now left.
Qed.

Lemma csv_rows_records_witness :
  csv_rows (DictReader [ template_header;
                         [u8 " D-MAX "; u8 "LS "; u8 "P1070000"];
                         [u8 ""; u8 "x"; u8 "1"];
                         [u8 "mu-X"; u8 "LS-E"; u8 "TBD"] ]) []
  = Return [ {| model := u8 "D-MAX"; variant := u8 "LS"; priceRange := u8 "₱1,070,000" |} ].
Proof.
  apply (csv_rows_records (DictReader [ template_header;
                                        [u8 " D-MAX "; u8 "LS "; u8 "P1070000"];
                                        [u8 ""; u8 "x"; u8 "1"];
                                        [u8 "mu-X"; u8 "LS-E"; u8 "TBD"] ])).
  repeat (constructor; [vm_compute; reflexivity|]). constructor.
Defined.

(** X6: the loop over a sheet at least three cells wide returns, in the
    order of the rows, the records of the rows with a truthy first cell
    among the rows before the first row whose first cell is [None]: model
    and variant as stripped text, an empty cell counting as empty text,
    the price formatted. *)
Theorem excel_rows_records (rows : list (list pyval)) :
  Forall wide rows ->
  excel_rows rows []
  = Return (map excel_record
              (List.filter first_cell_truthy
                 (take (first_index first_cell_none rows) rows))).
Proof.
  intros H. rewrite excel_rows_result. cbn zeta.
  assert (existsb excel_row_short (take (first_index first_cell_none rows) rows) = false)
    as ->; [|reflexivity].
  apply not_true_is_false. intros Hex. apply existsb_exists in Hex as [row [Hin Hshort]].
  assert (In row rows) as Hrow.
  { rewrite <- (firstn_skipn (first_index first_cell_none rows) rows).
    apply in_or_app. now left. }
  rewrite List.Forall_forall in H. specialize (H row Hrow). unfold wide in H.
  destruct row as [|c0 [|c1 [|c2 tail]]]; simpl in H; try lia.
  destruct c0; discriminate.
Qed.

Lemma excel_rows_records_witness :
  excel_rows [ [PyStr (u8 " D-MAX "); PyNone; PyInt 1070000];
               [PyInt 0; PyStr (u8 "x"); PyNone];
               [PyNone; PyNone; PyNone];
               [PyStr (u8 "mu-X"); PyNone; PyNone] ] []
  = Return [ {| model := u8 "D-MAX"; variant := []; priceRange := u8 "₱1,070,000" |} ].
Proof.
  apply (excel_rows_records [ [PyStr (u8 " D-MAX "); PyNone; PyInt 1070000];
                              [PyInt 0; PyStr (u8 "x"); PyNone];
                              [PyNone; PyNone; PyNone];
                              [PyStr (u8 "mu-X"); PyNone; PyNone] ]).
  repeat (constructor; [unfold wide; simpl; lia|]). constructor.
Defined.

(** X7: the loop over a file raises only [AttributeError], and it does so
    exactly when a row before the first row without a model has [None]
    for its "Variant" field (a record cut short before that column). *)
Theorem csv_rows_raises (rows : list csv_row) (acc : list model_record) (e : exn) :
  csv_rows rows acc = Raise e
  <-> e = AttributeError
      /\ Exists (fun row => csv_variant_ok row = false)
                (take (first_index csv_model_missing rows) rows).
Proof.
  rewrite csv_rows_result. cbn zeta.
  destruct (forallb csv_variant_ok _) eqn:E.
  - split; [discriminate|]. intros [_ Hex]. exfalso.
    apply List.Exists_exists in Hex as [row [Hin Hrow]].
    rewrite forallb_forall in E. rewrite (E row Hin) in Hrow. discriminate.
  - split; [intros [= <-]; split; [reflexivity|]|now intros [-> _]].
    apply List.Exists_exists. apply not_true_iff_false in E.
    destruct (List.Forall_Exists_dec (fun row => csv_variant_ok row = true)
                (fun row => bool_dec (csv_variant_ok row) true)
                (take (first_index csv_model_missing rows) rows)) as [Hall|Hex].
    + exfalso. apply E. apply forallb_forall. now apply List.Forall_forall.
    + apply List.Exists_exists in Hex as [row [Hin Hrow]]. exists row.
      split; [exact Hin|now apply not_true_is_false].
Qed.

(** X8: the loop over a sheet raises only [IndexError], and it does so
    exactly when a row before the first row whose first cell is [None] is
    too short: it has no cell, or fewer than three cells. *)
Theorem excel_rows_raises (rows : list (list pyval)) (acc : list model_record) (e : exn) :
  excel_rows rows acc = Raise e
  <-> e = IndexError
      /\ Exists (fun row => excel_row_short row = true)
                (take (first_index first_cell_none rows) rows).
Proof.
  rewrite excel_rows_result. cbn zeta.
  destruct (existsb excel_row_short _) eqn:E.
  - split; [intros [= <-]; split; [reflexivity|]|now intros [-> _]].
    apply existsb_exists in E. now apply List.Exists_exists.
  - split; [discriminate|]. intros [_ Hex]. exfalso.
    apply List.Exists_exists in Hex. apply existsb_exists in Hex. congruence.
Qed.

(** X9: rows after the row that ends a loop are never looked at: whatever
    follows the first row without a model (file) or with [None] for its
    first cell (sheet), the loop returns, or raises, the same. *)
Theorem rows_after_stop_ignored :
  (forall (pre : list csv_row) stop post post' acc,
     csv_model_missing stop = true ->
     csv_rows (pre ++ stop :: post) acc = csv_rows (pre ++ stop :: post') acc)
  /\ (forall (pre : list (list pyval)) stop post post' acc,
        first_cell_none stop = true ->
        excel_rows (pre ++ stop :: post) acc = excel_rows (pre ++ stop :: post') acc).
Proof.
  split; intros pre stop post post' acc Hstop; revert acc;
    induction pre as [|row pre IH]; intros acc; cbn [app csv_rows excel_rows].
  - now rewrite (csv_row_action_stop stop Hstop).
  - destruct (csv_row_action row) as [[| |r]|e]; cbn [mbind outcome_bind];
      try reflexivity; apply IH.
  - rewrite excel_row_action_cases, Hstop. reflexivity.
  - destruct (excel_row_action row) as [[| |r]|e]; cbn [mbind outcome_bind];
      try reflexivity; apply IH.
Qed.

Lemma rows_after_stop_ignored_witness :
  excel_rows ([[PyStr (u8 "D-MAX"); PyNone; PyNone]] ++ [PyNone] :: [[PyStr (u8 "x")]]) []
  = excel_rows ([[PyStr (u8 "D-MAX"); PyNone; PyNone]] ++ [PyNone] :: []) [].
Proof.
  apply (proj2 rows_after_stop_ignored [[PyStr (u8 "D-MAX"); PyNone; PyNone]]
           [PyNone] [[PyStr (u8 "x")]] [] []).
  reflexivity.
Defined.

(** ** Template files *)

(** A row of a template file maps the three names to the first three
    fields of the record, to [None] where the record is shorter. *)
Lemma dict_row_template (fields : list pystr) :
  fields <> [] ->
  dict_row template_header fields !! key_Model = Some (fields !! 0%nat)
  /\ dict_row template_header fields !! key_Variant = Some (fields !! 1%nat)
  /\ dict_row template_header fields !! key_Price = Some (fields !! 2%nat).
Proof.
  intros H. unfold dict_row, template_header.
  destruct fields as [|a [|b [|c rest]]]; [congruence|..];
    cbn [zip zip_with length skipn fold_left fst snd]; rewrite ?skipn_nil;
    cbn [fold_left lookup list_lookup];
    repeat split;
    repeat first [rewrite lookup_insert_eq | rewrite lookup_insert_ne by discriminate];
    reflexivity.
Qed.

Lemma template_row_facts (fields : list pystr) :
  fields <> [] ->
  csv_model_missing (dict_row template_header fields) = first_field_empty fields
  /\ csv_variant_ok (dict_row template_header fields) = has_variant fields
  /\ csv_row_record (dict_row template_header fields) = csv_fields_record fields.
Proof.
  intros H. destruct (dict_row_template fields H) as [Hm [Hv Hp]].
  unfold csv_model_missing, csv_variant_ok, csv_row_record, csv_fields_record, row_get.
  rewrite Hm, Hv, Hp.
  destruct fields as [|a [|b [|c rest]]]; [congruence|..];
    (split; [destruct a; reflexivity|split; reflexivity]).
Qed.

Lemma csv_rows_template (rows : list (list pystr)) (acc : list model_record) :
  Forall (fun fields => fields <> []) rows ->
  let before := take (first_index first_field_empty rows) rows in
  csv_rows (map (dict_row template_header) rows) acc
  = if forallb has_variant before
    then Return (acc ++ map csv_fields_record before)
    else Raise AttributeError.
Proof.
  intros H. rewrite csv_rows_result. cbn zeta.
  assert (take (first_index csv_model_missing (map (dict_row template_header) rows))
               (map (dict_row template_header) rows)
          = map (dict_row template_header)
                (take (first_index first_field_empty rows) rows)) as ->.
  { induction H as [|fields rows Hf _ IH]; [reflexivity|].
    cbn [map first_index]. destruct (template_row_facts fields Hf) as [-> _].
    destruct (first_field_empty fields); [reflexivity|]. cbn [take map]. now rewrite IH. }
  assert (Forall (fun fields => fields <> [])
                 (take (first_index first_field_empty rows) rows)) as Hb.
  { rewrite <- (firstn_skipn (first_index first_field_empty rows) rows) in H.
    now apply Forall_app in H. }
  induction Hb as [|fields before Hf _ IH]; [reflexivity|].
  cbn [map forallb]. destruct (template_row_facts fields Hf) as [_ [-> ->]].
  destruct (has_variant fields); cbn [andb]; [|reflexivity].
  destruct (forallb csv_variant_ok _), (forallb has_variant before);
    try discriminate; try reflexivity.
  injection IH as IH. apply app_inv_head in IH. now rewrite IH.
Qed.

Lemma nonblank_records records : Forall (fun fields => fields <> []) (nonblank records).
Proof.
  unfold nonblank. apply List.Forall_forall. intros fields Hin.
  apply filter_In in Hin as [_ Hin]. destruct fields; [discriminate|congruence].
Qed.

(** X10: for a file with the template header (Model, Variant, price
    range), by the records of the file: blank records are passed over;
    the loop stops at the first record whose first field is empty; each
    record before it gives its first two fields, stripped, and its third
    field, formatted (empty when there is none); a record before the stop
    with a single field makes the loop raise [AttributeError]. *)
Theorem csv_template_file (records : list (list pystr)) :
  let before :=
    take (first_index first_field_empty (nonblank records)) (nonblank records) in
  csv_rows (DictReader (template_header :: records)) []
  = if forallb has_variant before
    then Return (map csv_fields_record before)
    else Raise AttributeError.
Proof.
  cbn zeta. unfold DictReader. fold (nonblank records).
  exact (csv_rows_template (nonblank records) [] (nonblank_records records)).
Qed.

Example csv_template_file_example :
  csv_rows (DictReader [ template_header;
                         [u8 "D-MAX"; u8 " LS "];
                         [];
                         [u8 "mu-X"; u8 "LS-E"; u8 "P1690000 - P2450000"; u8 "extra"];
                         [u8 ""];
                         [u8 "Traviz"] ]) []
  = Return [ {| model := u8 "D-MAX"; variant := u8 "LS"; priceRange := [] |};
             {| model := u8 "mu-X"; variant := u8 "LS-E";
                priceRange := u8 "₱1,690,000 – ₱2,450,000" |} ].
Proof. vm_compute. reflexivity. Qed.

(** ** Fields of the records *)

Lemma price_text_trimmed raw : trimmed (price_text raw).
Proof. exact (format_result_trimmed raw _ (format_price_range_price_text raw)). Qed.

Lemma csv_row_record_trimmed row : record_trimmed (csv_row_record row).
Proof. repeat split; cbn; try apply strip_trimmed. apply price_text_trimmed. Qed.

Lemma excel_record_trimmed row : record_trimmed (excel_record row).
Proof. repeat split; cbn; try apply strip_trimmed. apply price_text_trimmed. Qed.

(** X11: no field of a record that either loop returns has whitespace at
    its start or at its end. *)
Theorem records_trimmed :
  (forall (rows : list csv_row) models,
     csv_rows rows [] = Return models -> Forall record_trimmed models)
  /\ (forall (rows : list (list pyval)) models,
        excel_rows rows [] = Return models -> Forall record_trimmed models).
Proof.
  split; intros rows models H.
  - rewrite csv_rows_result in H. cbn zeta in H.
    destruct (forallb csv_variant_ok _); [|discriminate]. injection H as <-.
    cbn [app]. apply List.Forall_map. apply List.Forall_forall.
    intros row _. apply csv_row_record_trimmed.
  - rewrite excel_rows_result in H. cbn zeta in H.
    destruct (existsb excel_row_short _); [discriminate|]. injection H as <-.
    cbn [app]. apply List.Forall_map. apply List.Forall_forall.
    intros row _. apply excel_record_trimmed.
Qed.

Lemma records_trimmed_witness :
  Forall record_trimmed
    [ {| model := u8 "D-MAX"; variant := u8 "LS"; priceRange := u8 "TBD" |} ].
Proof.
  apply (proj2 records_trimmed
           [ [PyStr (u8 " D-MAX  "); PyStr (u8 "LS "); PyStr (u8 " TBD ")] ]).
  reflexivity.
Defined.

(** ** The whole run *)

Section WholeLoop.

Variable find : pystr * category_info -> option (outcome (list model_record)).
Variable warn : pystr * category_info -> pystr.

(** A loop that comes to its end has printed the warnings of the entries
    without a source, and nothing else, and has added the categories of
    the entries with a source, each with the records extracted for it. *)
Lemma category_loop_result mapping acc log cats :
  category_loop find warn mapping acc = (log, Return cats) ->
  log = map warn (List.filter (lacks_source find) mapping)
  /\ cats = acc ++ map (fun entry => make_category entry.2 (found_models find entry))
                       (List.filter (has_source find) mapping).
Proof.
  revert acc log. induction mapping as [|entry mapping IH]; intros acc log H.
  - injection H as <- <-. split; [reflexivity|now rewrite app_nil_r].
  - cbn [category_loop] in H. cbn [List.filter].
    unfold lacks_source at 1, has_source at 1 2, found_models.
    destruct (find entry) as [[ms|e]|] eqn:E; cbn [negb].
    + cbn [lift mbind io_bind] in H.
      destruct (category_loop find warn mapping _) as [log' r] eqn:Eloop.
      injection H as <- ->. destruct (IH _ _ Eloop) as [-> ->].
      split; [reflexivity|]. cbn [map]. rewrite E. cbn [returned].
      now rewrite <- app_assoc.
    + discriminate.
    + cbn [print mbind io_bind] in H.
      destruct (category_loop find warn mapping acc) as [log' r] eqn:Eloop.
      injection H as <- ->. destruct (IH _ _ Eloop) as [-> ->].
      split; reflexivity.
Qed.

(** A loop that raises passes on what the extraction of one entry
    raised. *)
Lemma category_loop_raises mapping acc log e :
  category_loop find warn mapping acc = (log, Raise e) ->
  exists entry, In entry mapping /\ find entry = Some (Raise e).
Proof.
  revert acc log. induction mapping as [|entry mapping IH]; intros acc log H.
  - discriminate.
  - cbn [category_loop] in H.
    destruct (find entry) as [[ms|e']|] eqn:E.
    + cbn [lift mbind io_bind] in H.
      destruct (category_loop find warn mapping _) as [log' r] eqn:Eloop.
      injection H as <- ->. destruct (IH _ _ Eloop) as [entry' [Hin Hf]].
      exists entry'. split; [now right|exact Hf].
    + injection H as <- <-. exists entry. split; [now left|exact E].
    + cbn [print mbind io_bind] in H.
      destruct (category_loop find warn mapping acc) as [log' r] eqn:Eloop.
      injection H as <- ->. destruct (IH _ _ Eloop) as [entry' [Hin Hf]].
      exists entry'. split; [now right|exact Hf].
Qed.

End WholeLoop.

Lemma save_json_summary data : save_json data = (summary data, Return data).
Proof. reflexivity. Qed.

Lemma summary_length data : length (summary data) = (2 + length (categories data))%nat.
Proof. unfold summary, save_json. cbn. now rewrite length_map. Qed.

Lemma filter_partition_length {A : Type} (p : A -> bool) (l : list A) :
  (length (List.filter p l) + length (List.filter (fun x => negb (p x)) l))%nat = length l.
Proof.
  induction l as [|x l IH]; [reflexivity|]. cbn [List.filter].
  destruct (p x); cbn [negb length]; lia.
Qed.

Lemma csv_run_result dir log doc :
  csv_to_json (Some dir) = (log, Return doc) ->
  log = map (fun entry => csv_warning entry.2)
            (List.filter (lacks_source (csv_find dir)) CATEGORY_MAPPING)
        ++ summary doc
  /\ categories doc
     = map (fun entry => make_category entry.2 (found_models (csv_find dir) entry))
           (List.filter (has_source (csv_find dir)) CATEGORY_MAPPING).
Proof.
  intros H. unfold csv_to_json in H. rewrite csv_categories_loop in H.
  destruct (category_loop _ _ _ _) as [log1 [cats|e]] eqn:Eloop;
    cbn [mbind io_bind] in H; [|discriminate].
  rewrite save_json_summary in H. injection H as <- <-.
  destruct (category_loop_result _ _ _ _ _ _ Eloop) as [-> ->]. now split.
Qed.

Lemma excel_run_result files excel_file wb log doc :
  files !! excel_file = Some wb ->
  excel_to_json files excel_file = (log, Return doc) ->
  log = map (fun entry => excel_warning entry.1)
            (List.filter (lacks_source (excel_find wb)) CATEGORY_MAPPING)
        ++ summary doc
  /\ categories doc
     = map (fun entry => make_category entry.2 (found_models (excel_find wb) entry))
           (List.filter (has_source (excel_find wb)) CATEGORY_MAPPING).
Proof.
  intros Hfile H. unfold excel_to_json in H. rewrite Hfile, excel_categories_loop in H.
  destruct (category_loop _ _ _ _) as [log1 [cats|e]] eqn:Eloop;
    cbn [mbind io_bind] in H; [|discriminate].
  rewrite save_json_summary in H. injection H as <- <-.
  destruct (category_loop_result _ _ _ _ _ _ Eloop) as [-> ->]. now split.
Qed.

(** X12: a run that writes the document prints one warning for each entry
    of the catalogue without a source, in the order of the catalogue, then
    the summary, and nothing else; each of the four entries gives either
    a warning or a category. *)
Theorem run_log :
  (forall dir log doc,
     csv_to_json (Some dir) = (log, Return doc) ->
     log = map (fun entry => csv_warning entry.2)
               (List.filter (lacks_source (csv_find dir)) CATEGORY_MAPPING)
           ++ summary doc
     /\ (length (categories doc)
         + length (List.filter (lacks_source (csv_find dir)) CATEGORY_MAPPING))%nat
        = 4%nat
     /\ length (summary doc) = (2 + length (categories doc))%nat)
  /\ (forall files excel_file wb log doc,
        files !! excel_file = Some wb ->
        excel_to_json files excel_file = (log, Return doc) ->
        log = map (fun entry => excel_warning entry.1)
                  (List.filter (lacks_source (excel_find wb)) CATEGORY_MAPPING)
              ++ summary doc
        /\ (length (categories doc)
            + length (List.filter (lacks_source (excel_find wb)) CATEGORY_MAPPING))%nat
           = 4%nat
        /\ length (summary doc) = (2 + length (categories doc))%nat).
Proof.
  split.
  - intros dir log doc H. destruct (csv_run_result dir log doc H) as [Hlog Hcats].
    split; [exact Hlog|]. split; [|apply summary_length].
    rewrite Hcats, length_map.
    exact (filter_partition_length (has_source (csv_find dir)) CATEGORY_MAPPING).
  - intros files excel_file wb log doc Hfile H.
    destruct (excel_run_result files excel_file wb log doc Hfile H) as [Hlog Hcats].
    split; [exact Hlog|]. split; [|apply summary_length].
    rewrite Hcats, length_map.
    exact (filter_partition_length (has_source (excel_find wb)) CATEGORY_MAPPING).
Qed.

Lemma run_log_witness :
  (csv_to_json (Some sample_templates)).1
  = [u8 "Warning: File 'templates/Medium Duty Trucks.csv' not found. Skipping..."]
    ++ summary (returned no_document (csv_to_json (Some sample_templates)).2).
Proof.
  destruct (proj1 run_log sample_templates (csv_to_json (Some sample_templates)).1
              (returned no_document (csv_to_json (Some sample_templates)).2)
              ltac:(vm_compute; reflexivity)) as [H _].
  rewrite H. vm_compute. reflexivity.
Defined.

(** X13: in the document that a run writes, the categories are those of
    the catalogue entries with a source, in the order of the catalogue,
    each with the id, name, subtitle, icon and description of its entry
    and with the records that the loop over its rows returned. *)
Theorem run_categories :
  (forall dir log doc,
     csv_to_json (Some dir) = (log, Return doc) ->
     categories doc
     = map (fun entry => make_category entry.2 (found_models (csv_find dir) entry))
           (List.filter (has_source (csv_find dir)) CATEGORY_MAPPING))
  /\ (forall files excel_file wb log doc,
        files !! excel_file = Some wb ->
        excel_to_json files excel_file = (log, Return doc) ->
        categories doc
        = map (fun entry => make_category entry.2 (found_models (excel_find wb) entry))
              (List.filter (has_source (excel_find wb)) CATEGORY_MAPPING)).
Proof.
  split.
  - intros dir log doc H. exact (proj2 (csv_run_result dir log doc H)).
  - intros files excel_file wb log doc Hfile H.
    exact (proj2 (excel_run_result files excel_file wb log doc Hfile H)).
Qed.

Lemma run_categories_witness :
  map id (categories (returned no_document
                        (excel_to_json sample_files (u8 "vehicles.xlsx")).2))
  = [u8 "passenger"; u8 "light-commercial"; u8 "heavy-duty"].
Proof.
  pose proof (proj2 run_categories sample_files (u8 "vehicles.xlsx") sample_workbook
                (excel_to_json sample_files (u8 "vehicles.xlsx")).1
                (returned no_document (excel_to_json sample_files (u8 "vehicles.xlsx")).2)
                ltac:(vm_compute; reflexivity) ltac:(vm_compute; reflexivity)) as H.
  apply (f_equal (map id)) in H. rewrite H. vm_compute. reflexivity.
Defined.

(** X14: a run ends on [SystemExit] exactly when what it reads from is not
    there: the workbook named on the command line or, without one,
    [templates/].  The exit status is then 1 and the one line printed is
    the error. *)
Theorem main_exit_status (argv : list pystr)
    (templates : option (gmap pystr (list (list pystr))))
    (files : gmap pystr (gmap pystr sheet)) (log : list pystr) (code : Z) :
  main argv templates files = (log, Raise (SystemExit code))
  <-> code = 1%Z
      /\ match argv with
         | _ :: excel_file :: _ =>
           files !! excel_file = None
           /\ log = [u8 "Error: File '" ++ excel_file ++ u8 "' not found."]
         | _ =>
           templates = None /\ log = [u8 "Error: templates/ directory not found."]
         end.
Proof.
  assert (forall l, csv_to_json templates = (l, Raise (SystemExit code))
                    <-> code = 1%Z
                        /\ templates = None
                        /\ l = [u8 "Error: templates/ directory not found."]) as Hcsv.
  { intros l. split.
    - intros H. destruct templates as [dir|].
      + exfalso. unfold csv_to_json in H. rewrite csv_categories_loop in H.
        destruct (category_loop _ _ _ _) as [log1 [cats|e']] eqn:Eloop;
          cbn [mbind io_bind] in H.
        * rewrite save_json_summary in H. discriminate.
        * injection H as _ ->.
          destruct (category_loop_raises _ _ _ _ _ _ Eloop) as [entry [_ Hf]].
          unfold csv_find in Hf. destruct (dir !! csv_name entry.2); [|discriminate].
          injection Hf as Hf. rewrite csv_rows_result in Hf. cbn zeta in Hf.
          destruct (forallb csv_variant_ok _); discriminate.
      + injection H as <- <-. now repeat split.
    - intros [-> [-> ->]]. reflexivity. }
  unfold main. destruct argv as [|prog [|excel_file rest]]; try exact (Hcsv log).
  split.
  - intros H. unfold excel_to_json in H.
    destruct (files !! excel_file) as [wb|] eqn:Efile.
    + exfalso. rewrite excel_categories_loop in H.
      destruct (category_loop _ _ _ _) as [log1 [cats|e']] eqn:Eloop;
        cbn [mbind io_bind] in H.
      * rewrite save_json_summary in H. discriminate.
      * injection H as _ ->.
        destruct (category_loop_raises _ _ _ _ _ _ Eloop) as [entry [_ Hf]].
        unfold excel_find in Hf. destruct (wb !! entry.1); [|discriminate].
        injection Hf as Hf. rewrite excel_rows_result in Hf. cbn zeta in Hf.
        destruct (existsb excel_row_short _); discriminate.
    + injection H as <- <-. now repeat split.
  - intros [-> [Hfile ->]]. unfold excel_to_json. now rewrite Hfile.
Qed.

Lemma main_exit_status_witness :
  main [u8 "excel_to_json.py"; u8 "v.xlsx"] None ∅
  = ([u8 "Error: File 'v.xlsx' not found."], Raise (SystemExit 1)).
Proof.
  apply (proj2 (main_exit_status [u8 "excel_to_json.py"; u8 "v.xlsx"] None ∅
                  [u8 "Error: File 'v.xlsx' not found."] 1)).
  split; [reflexivity|]. split; reflexivity.
Defined.

(** ** Decimal prices *)

Lemma round_half_even_exact num den K :
  (0 < den)%Z -> (2 * Z.abs (num - K * den) < den)%Z -> round_half_even num den = K.
Proof.
  intros Hden H. unfold round_half_even.
  pose proof (Z.div_mod num den ltac:(lia)) as Hdm.
  pose proof (Z.mod_pos_bound num den Hden) as Hr.
  assert (num / den = K \/ num / den = K - 1)%Z as [Hq|Hq] by nia.
  - rewrite Hq in *. destruct (Z.ltb_spec (2 * (num mod den)) den); [reflexivity|nia].
  - rewrite Hq in *. destruct (Z.ltb_spec (2 * (num mod den)) den); [nia|].
    destruct (Z.ltb_spec den (2 * (num mod den))); [lia|nia].
Qed.

Lemma round_half_even_near num den :
  (0 < den)%Z -> (2 * Z.abs (round_half_even num den * den - num) <= den)%Z.
Proof.
  intros Hden. unfold round_half_even.
  pose proof (Z.div_mod num den ltac:(lia)) as Hdm.
  pose proof (Z.mod_pos_bound num den Hden) as Hr.
  destruct (Z.ltb_spec (2 * (num mod den)) den); [nia|].
  destruct (Z.ltb_spec den (2 * (num mod den))); [nia|].
  destruct (Z.even (num / den)); nia.
Qed.

Lemma scaled_neg n p10 e : (e < 0)%Z -> scaled n p10 e = ((n * 2 ^ (- e))%Z, p10).
Proof. intros H. unfold scaled. now rewrite (proj2 (Z.leb_gt 0 e) H). Qed.

(** Below 2^45 the nearest binary64 value has a negative exponent of at
    least 8 bits. *)
Lemma float_of_ratio_small n p10 :
  (0 < n < 2 ^ 45)%Z -> (0 < p10)%Z ->
  exists e, (e <= -8)%Z
            /\ float_of_ratio n p10
               = Finite (round_half_even (n * 2 ^ (- e)) p10) e.
Proof.
  intros Hn Hp. unfold float_of_ratio.
  rewrite (proj2 (Z.eqb_neq n 0)) by lia.
  assert (Z.log2 n < 45)%Z as Hlog by (apply Z.log2_lt_pow2; lia).
  pose proof (Z.log2_nonneg p10) as Hlp.
  set (e1 := (Z.log2 n - Z.log2 p10 - 52)%Z).
  assert (e1 <= -8)%Z as He1 by (unfold e1; lia).
  rewrite (scaled_neg n p10 e1) by lia. cbv zeta.
  set (e2 := if (n * 2 ^ (- e1) / p10 <? 2 ^ 52)%Z then (e1 - 1)%Z else e1).
  assert (e2 <= -8)%Z as He2 by (unfold e2; destruct (_ <? _)%Z; lia).
  set (e := Z.max e2 (-1074)).
  assert (e <= -8)%Z as He by (unfold e; lia).
  rewrite (scaled_neg n p10 e) by lia.
  rewrite (proj2 (Z.ltb_ge 971 e)) by lia.
  rewrite (proj2 (Z.eqb_neq e 971)) by lia.
  cbn [orb andb]. exists e. split; [exact He|reflexivity].
Qed.

(** A number of hundredths below 2^45 keeps its hundredths through the
    conversion to binary64 and the rounding to two decimals. *)
Lemma format_float_exact n p10 K :
  (0 <= n < 2 ^ 45)%Z -> (0 < p10)%Z -> (K * p10 = 100 * n)%Z ->
  format_float_2f (float_of_ratio n p10)
  = format_int_commas (Z.to_N (K / 100))
      ++ [dot; 0x30 + Z.to_N (K mod 100) / 10; 0x30 + Z.to_N (K mod 100) mod 10].
Proof.
  intros Hn Hp HK. destruct (Z.eq_dec n 0%Z) as [->|Hnz].
  - assert (K = 0)%Z as -> by nia. reflexivity.
  - destruct (float_of_ratio_small n p10 ltac:(lia) Hp) as [e [He ->]].
    cbn [format_float_2f]. rewrite (proj2 (Z.leb_gt 0 e)) by lia.
    set (D := (2 ^ (- e))%Z).
    assert (2 ^ 8 <= D)%Z as HD by (apply Z.pow_le_mono_r; lia).
    pose proof (round_half_even_near (n * D) p10 Hp) as Hm.
    set (m := round_half_even (n * D) p10) in *.
    assert (round_half_even (m * 100) D = K) as ->; [|reflexivity].
    apply round_half_even_exact; [lia|].
    assert (Z.abs (m * 100 - K * D) * p10 <= 50 * p10)%Z as Hb.
    { replace (Z.abs (m * 100 - K * D) * p10)%Z
        with (100 * Z.abs (m * p10 - n * D))%Z; [lia|].
      rewrite <- (Z.abs_eq p10) at 2 by lia. rewrite <- Z.abs_mul.
      replace ((m * 100 - K * D) * p10)%Z with (100 * (m * p10 - n * D))%Z by nia.
      rewrite Z.abs_mul. reflexivity. }
    assert (Z.abs (m * 100 - K * D) <= 50)%Z by nia. change (2 ^ 8)%Z with 256%Z in HD. lia.
Qed.

Lemma exact_display (vi c : N) (n p10 : Z) :
  (0 <= n < 2 ^ 45)%Z -> (0 < p10)%Z -> c < 100 ->
  ((Z.of_N vi * 100 + Z.of_N c) * p10 = 100 * n)%Z ->
  format_float_2f (float_of_ratio n p10)
  = format_int_commas vi ++ [dot; 0x30 + c / 10; 0x30 + c mod 10].
Proof.
  intros Hn Hp Hc HK.
  rewrite (format_float_exact n p10 (Z.of_N vi * 100 + Z.of_N c) Hn Hp HK).
  assert ((Z.of_N vi * 100 + Z.of_N c) / 100 = Z.of_N vi)%Z as ->
    by (symmetry; apply (Z.div_unique _ _ _ (Z.of_N c)); lia).
  assert ((Z.of_N vi * 100 + Z.of_N c) mod 100 = Z.of_N c)%Z as ->
    by (symmetry; apply (Z.mod_unique _ _ (Z.of_N vi)); lia).
  now rewrite !N2Z.id.
Qed.

Lemma span_digits_point ip fp :
  all_digits ip -> span_digits (ip ++ dot :: fp) = (ip, dot :: fp).
Proof.
  induction 1 as [|c ip Hc _ IH]; [reflexivity|].
  cbn [app span_digits]. now rewrite Hc, IH.
Qed.

Lemma py_float_point ip fp :
  all_digits ip -> all_digits fp -> ip ++ fp <> [] ->
  py_float (ip ++ dot :: fp)
  = Return (float_of_ratio (Z.of_N (digits_value (ip ++ fp)))
                           (10 ^ Z.of_nat (length fp))).
Proof.
  intros Hip Hfp Hne. unfold py_float. rewrite (span_digits_point ip fp Hip).
  rewrite N.eqb_refl.
  assert (forallb is_digit fp = true) as ->
    by (apply forallb_forall; now apply List.Forall_forall).
  destruct (ip ++ fp); [congruence|reflexivity].
Qed.

(** Digits, a point and at most two digits: displayed as they are, with
    thousands separators and two decimals. *)
Lemma decimal_display ip fp :
  all_digits ip -> all_digits fp -> (length fp <= 2)%nat ->
  digits_value (ip ++ fp) < 2 ^ 45 ->
  format_float_2f (float_of_ratio (Z.of_N (digits_value (ip ++ fp)))
                                  (10 ^ Z.of_nat (length fp)))
  = format_int_commas (digits_value ip) ++ dot :: cents_text fp.
Proof.
  intros Hip Hfp Hlen Hbound. unfold digits_value in *.
  rewrite fold_left_app in *. fold (digits_value ip) in *.
  set (vi := digits_value ip) in *.
  destruct fp as [|d1 [|d2 [|d3 fp]]]; [| | |simpl in Hlen; lia];
    cbn [fold_left length cents_text] in *.
  - rewrite (exact_display vi 0); [reflexivity|lia|reflexivity|lia|].
    change (10 ^ Z.of_nat 0)%Z with 1%Z. lia.
  - inversion Hfp as [|? ? Hd1 _]; subst.
    change (10 ^ Z.of_nat 1)%Z with 10%Z.
    each_digit d1 Hd1; unfold digit_value in *;
      match goal with
      | |- context [Z.of_N (vi * 10 + (?d - 48))] =>
        rewrite (exact_display vi ((d - 48) * 10)); [reflexivity|lia|lia|lia|lia]
      end.
  - inversion Hfp as [|? ? Hd1 Hfp']; subst. inversion Hfp' as [|? ? Hd2 _]; subst.
    change (10 ^ Z.of_nat 2)%Z with 100%Z.
    each_digit d1 Hd1; each_digit d2 Hd2; unfold digit_value in *;
      match goal with
      | |- context [Z.of_N ((vi * 10 + (?a - 48)) * 10 + (?b - 48))] =>
        rewrite (exact_display vi ((a - 48) * 10 + (b - 48)));
          [reflexivity|lia|lia|lia|lia]
      end.
Qed.

Lemma sub_strip text : re_sub_non_numeric (strip text) = re_sub_non_numeric text.
Proof.
  destruct (strip_split text) as [a [b [Ha [Hb Hs]]]]. rewrite Hs at 2.
  now rewrite !sub_app, (sub_all_space a Ha), (sub_all_space b Hb), app_nil_r.
Qed.

(** X15: a single price (no dash, not a "request") whose digits and point
    read as a decimal number with at most two decimals, below 2^45 in its
    digits, is displayed exactly: the glyph, the integer part with
    thousands separators, the point, and the decimals filled up to two
    digits.  The conversion to a binary float and back loses nothing. *)
Theorem format_price_range_decimal (text ip fp : pystr) :
  no_dash text ->
  contains request (lower text) = false ->
  re_sub_non_numeric text = ip ++ dot :: fp ->
  all_digits ip -> all_digits fp -> ip ++ fp <> [] ->
  (length fp <= 2)%nat ->
  digits_value (ip ++ fp) < 2 ^ 45 ->
  format_price_range (PyStr text)
  = Return (peso :: format_int_commas (digits_value ip) ++ dot :: cents_text fp).
Proof.
  intros Hdash Hreq Hsub Hip Hfp Hne Hlen Hbound.
  rewrite <- contains_request_strip_eq in Hreq. rewrite <- sub_strip in Hsub.
  rewrite (format_price_range_str text Hreq).
  destruct (strip text) as [|c t] eqn:E.
  { destruct ip; discriminate. }
  rewrite <- E in *. rewrite re_split_no_dash by now apply strip_Forall.
  cbn [format_parts]. rewrite Hsub.
  destruct (ip ++ dot :: fp) as [|x xs] eqn:Enum; [destruct ip; discriminate|].
  rewrite <- Enum. unfold format_number.
  assert (existsb (N.eqb dot) (ip ++ dot :: fp) = true) as ->.
  { rewrite existsb_app. cbn [existsb]. rewrite N.eqb_refl. now rewrite orb_true_r. }
  rewrite (py_float_point ip fp Hip Hfp Hne). cbn [mbind outcome_bind format_parts app].
  now rewrite (decimal_display ip fp Hip Hfp Hlen Hbound).
Qed.

Lemma format_price_range_decimal_witness :
  format_price_range (PyStr (u8 " ₱2,500,000.5 ")) = Return (u8 "₱2,500,000.50").
Proof.
  apply (format_price_range_decimal (u8 " ₱2,500,000.5 ") (u8 "2500000") (u8 "5")).
  - vm_compute. repeat constructor.
  - vm_compute. reflexivity.
  - vm_compute. reflexivity.
  - vm_compute. repeat constructor.
  - vm_compute. repeat constructor.
  - discriminate.
  - simpl. lia.
  - vm_compute. reflexivity.
Defined.
